(** * Uniweb CLI test harness: a shallow embedding of its helpers

    The development follows [tests/setup/additional-helpers.js] (batch
    operations, content builder, performance helper) and
    [tests/setup/test-helpers.js] (the [TestEnvironment] sandbox).

    JavaScript values are modelled by the types the helpers really use:
    strings as [string] (the UTF-8 bytes of the text), arrays as [list],
    thrown errors as an explicit [completion], mutable state by explicit
    state passing.  Plain objects are modelled by their own properties in
    order of creation ([JsObject.t]); what a value inherits from the
    built-in prototypes is the engine's, and is a parameter
    ([Yaml.engine]). *)

From Stdlib Require Import ZArith NArith Ascii String List Bool Lia SpecFloat.
From stdpp Require Import base option list strings gmap pretty sorting.

Local Open Scope string_scope.
Local Open Scope list_scope.

(** ** JavaScript core: completions, strings, truthiness *)
Module Js.

(** A thrown value.  The helpers only ever throw (or let through)
    assertion failures of [expect], errors of the language and the
    platform, and the error [execa] rejects with, which carries what the
    subprocess left (fields that may be [undefined]).  Of an assertion
    failure the message kept is the one the helper handed to
    [expect(actual, message)]; the error's text starts with it and goes on
    with the matcher's own wording, which is not kept. *)
Inductive exn : Type :=
| AssertionError (msg : string)
| TypeError (msg : string)
| SystemError (msg : string)
| ExecaError (out err : option string) (code : option Z) (msg : string).

(** [error.message] (for an assertion failure, the part the helper
    gave). *)
Definition message (e : exn) : string :=
  match e with
  | AssertionError m | TypeError m | SystemError m | ExecaError _ _ _ m => m
  end.

(** [error.stdout], [error.stderr] and [error.exitCode]: [undefined] on an
    error that has no such field. *)
Definition stdout_of (e : exn) : option string :=
  match e with ExecaError out _ _ _ => out | _ => None end.

Definition stderr_of (e : exn) : option string :=
  match e with ExecaError _ err _ _ => err | _ => None end.

Definition exitCode_of (e : exn) : option Z :=
  match e with ExecaError _ _ code _ => code | _ => None end.

(** The outcome of evaluating an expression or awaiting a promise:
    normal completion (fulfilled) or abrupt completion (rejected). *)
Inductive completion (A : Type) : Type :=
| Normal (a : A)
| Throw (e : exn).
Arguments Normal {A} a.
Arguments Throw {A} e.

Definition returns {A} (c : completion A) : bool :=
  match c with Normal _ => true | Throw _ => false end.

(** [s.split(sep)] for a one-character separator. *)
Fixpoint split (sep : ascii) (s : string) : list string :=
  match s with
  | EmptyString => [EmptyString]
  | String c s' =>
      if Ascii.eqb c sep then EmptyString :: split sep s'
      else match split sep s' with
           | [] => [String c EmptyString]
           | h :: t => String c h :: t
           end
  end.

(** [arr.join(sep)] on an array of strings. *)
Definition join (sep : string) (l : list string) : string :=
  String.concat sep l.

(** [hay.includes(needle)]. *)
Fixpoint includes (needle hay : string) : bool :=
  if String.prefix needle hay then true
  else match hay with
       | EmptyString => false
       | String _ hay' => includes needle hay'
       end.

(** [s.repeat(n)]. *)
Fixpoint repeat (s : string) (n : nat) : string :=
  match n with
  | O => EmptyString
  | S n' => s +:+ repeat s n'
  end.

(** Truthiness of an optional string property: [undefined] and the
    empty string are falsy, every other string is truthy. *)
Definition truthy (o : option string) : bool :=
  match o with
  | Some s => negb (String.eqb s EmptyString)
  | None => false
  end.

(** [o || d] on an optional string. *)
Definition or_else (o : option string) (d : string) : string :=
  match o with
  | Some s => if String.eqb s EmptyString then d else s
  | None => d
  end.

(** [n || d] on an optional number: [undefined] and 0 are falsy. *)
Definition num_or_else (n : option Z) (d : Z) : Z :=
  match n with
  | Some z => if (z =? 0)%Z then d else z
  | None => d
  end.

(** [arr.reduce(callback, initial)] with a callback that may throw. *)
Fixpoint reduce {A B} (callback : B → A → completion B) (arr : list A) (acc : B)
  : completion B :=
  match arr with
  | [] => Normal acc
  | x :: rest =>
      match callback acc x with
      | Normal acc' => reduce callback rest acc'
      | Throw e => Throw e
      end
  end.

Definition nl : ascii := Ascii.ascii_of_nat 10.
Definition NL : string := String nl EmptyString.

(** *** Strings by UTF-16 code unit

    [s.length] and [s[i]] count and index UTF-16 code units.  A string
    is kept as the UTF-8 bytes of its text: a character is a lead byte
    followed by its continuation bytes ([10xxxxxx]); a character of four
    bytes (beyond the basic plane) is two code units, a surrogate pair,
    every other character is one. *)
Definition continuation (c : ascii) : bool :=
  let n := N_of_ascii c in ((128 <=? n) && (n <? 192))%N.

Definition starts_inside (s : string) : bool :=
  match s with
  | String c _ => continuation c
  | EmptyString => false
  end.

(** The characters of a string, each with all its bytes. *)
Fixpoint characters (s : string) : list string :=
  match s with
  | EmptyString => []
  | String c s' =>
      if starts_inside s' then
        match characters s' with
        | ch :: rest => String c ch :: rest
        | [] => [String c EmptyString]
        end
      else String c EmptyString :: characters s'
  end.

(** A lone surrogate [u] (in [D800, DFFF]), written in three bytes the
    way UTF-8 writes the other code units of that size. *)
Definition surrogate (u : N) : string :=
  String (ascii_of_N 237)
    (String (ascii_of_N (128 + (u / 64) mod 64))
       (String (ascii_of_N (128 + u mod 64)) EmptyString)).

(** The code units of one character. *)
Definition units_of (ch : string) : list string :=
  match ch with
  | String c0 (String c1 (String c2 (String c3 EmptyString))) =>
      if (240 <=? N_of_ascii c0)%N then
        let point := ((N_of_ascii c0 mod 8) * 262144
                      + (N_of_ascii c1 mod 64) * 4096
                      + (N_of_ascii c2 mod 64) * 64
                      + N_of_ascii c3 mod 64)%N in
        let v := (point - 65536)%N in
        [surrogate (55296 + v / 1024); surrogate (56320 + v mod 1024)]
      else [ch]
  | _ => [ch]
  end.

Definition code_units (s : string) : list string :=
  List.flat_map units_of (characters s).

(** [s.length] *)
Definition utf16_length (s : string) : nat := length (code_units s).

(** [s[i]] for an index [i]: a string of one code unit, or [undefined]. *)
Definition utf16_at (i : nat) (s : string) : option string :=
  List.nth_error (code_units s) i.

(** *** Numbers

    The helpers compute with integers only ([Date.now()], lengths).  A
    number held as data may be any IEEE 754 value; one that is not kept
    as an integer is kept as that value. *)
Inductive number : Type :=
| Int (z : Z)
| Float (x : spec_float).

(** [x < z] for a number [x] that is not kept as an integer. *)
Definition float_ltb (x : spec_float) (z : Z) : bool :=
  match x with
  | S754_zero _ => (0 <? z)%Z
  | S754_infinity negative => negative
  | S754_nan => false
  | S754_finite negative m e =>
      let v := if negative then Z.neg m else Z.pos m in
      if (0 <=? e)%Z then (v * 2 ^ e <? z)%Z else (v <? z * 2 ^ (- e))%Z
  end.

(** The double-quote character, for messages that quote a value. *)
Definition DQ : string := String (Ascii.ascii_of_nat 34) EmptyString.

End Js.

(** ** Ordinary objects with observable key order *)
Module JsObject.

Section WithValue.
Context {V : Type}.

(** The own string-keyed data properties of an object, in order of
    creation.  What the object inherits from its prototype is not held
    here. *)
Definition t : Type := list (string * V).

Definition empty : t := [].

(** The own property [k], if there is one. *)
Definition get (k : string) (o : t) : option V :=
  snd <$> List.find (fun kv => String.eqb (fst kv) k) o.

(** Writing the own data property [k]: an existing property keeps its
    place and takes the new value; a new property is created after all
    existing ones. *)
Fixpoint define (k : string) (v : V) (o : t) : t :=
  match o with
  | [] => [(k, v)]
  | (k', v') :: o' =>
      if String.eqb k' k then (k', v) :: o' else (k', v') :: define k v o'
  end.

(** [k in o], for own properties. *)
Definition has (k : string) (o : t) : bool :=
  match get k o with Some _ => true | None => false end.

(** The assignment [o[k] = v] reaches the [__proto__] accessor that
    [Object.prototype] provides: the key is [__proto__] and the object has
    no own property of that name. *)
Definition reaches_proto_setter (k : string) (o : t) : bool :=
  String.eqb k "__proto__" && negb (has k o).

(** [o[k] = v] on an object that inherits from [Object.prototype], for a
    value [v] that is neither an object nor [null].  The assignment
    writes the own property, unless it reaches the [__proto__] accessor:
    its setter ignores such a value, so nothing is stored. *)
Definition set (k : string) (v : V) (o : t) : t :=
  if reaches_proto_setter k o then o else define k v o.

Definition digit (c : ascii) : option N :=
  let n := N_of_ascii c in
  if ((48 <=? n) && (n <=? 57))%N then Some (n - 48)%N else None.

Fixpoint digits (acc : N) (s : string) : option N :=
  match s with
  | EmptyString => Some acc
  | String c s' =>
      match digit c with
      | Some d => digits (acc * 10 + d)%N s'
      | None => None
      end
  end.

(** A property key is an array index when it is the canonical decimal
    numeral of an integer in [0, 2^32 - 2]. *)
Definition array_index (k : string) : option N :=
  match k with
  | EmptyString => None
  | String c rest =>
      if Ascii.eqb c "0" && negb (String.eqb rest EmptyString) then None
      else match digits 0 k with
           | Some n => if (n <? 2 ^ 32 - 1)%N then Some n else None
           | None => None
           end
  end.

Definition is_index (kv : string * V) : bool :=
  match array_index (fst kv) with Some _ => true | None => false end.

Definition index_of (kv : string * V) : N :=
  match array_index (fst kv) with Some n => n | None => 0%N end.

Fixpoint insert_sorted (kv : string * V) (l : list (string * V)) :=
  match l with
  | [] => [kv]
  | x :: l' =>
      if (index_of kv <=? index_of x)%N then kv :: l
      else x :: insert_sorted kv l'
  end.

Definition sort_by_index (l : list (string * V)) : list (string * V) :=
  List.fold_right insert_sorted [] l.

(** [Object.entries(o)]: own property order of an ordinary object, array
    indices in ascending numeric order first, then the other string keys
    in order of creation. *)
Definition entries (o : t) : list (string * V) :=
  sort_by_index (List.filter is_index o)
    ++ List.filter (fun kv => negb (is_index kv)) o.

(** Ascending order of array-index keys. *)
Definition index_le (a b : string * V) : Prop := (index_of a <= index_of b)%N.

(** [Object.keys(o)]. *)
Definition keys (o : t) : list string := fst <$> entries o.

End WithValue.
Arguments t V : clear implicits.

End JsObject.

(** ** ContentBuilder *)
Module ContentBuilder.
Import Js.

(** Values stored in the front matter are scalars: strings, numbers,
    booleans, [null] and [undefined].  (Objects as values are outside the
    model.) *)
Inductive prim : Type :=
| PStr (s : string)
| PNum (n : number)
| PBool (b : bool)
| PNull
| PUndefined.

(** The builder: the own properties of the [frontMatter] object, whether
    that object has been cut off from [Object.prototype] (which
    [frontMatter.__proto__ = null] does), and the body blocks. *)
Record t : Type := mk {
  frontMatter : JsObject.t prim;
  detached : bool;
  body : list string
}.

(** [constructor()] *)
Definition new : t :=
  {| frontMatter := JsObject.empty; detached := false; body := [] |}.

(** [this.frontMatter[key] = value].  As long as the object inherits
    from [Object.prototype] and has no own property [__proto__], that key
    reaches the inherited accessor: [null] cuts the object off from its
    prototype, any other scalar is ignored; no property is created.
    Every other assignment writes the own property. *)
Definition assign (key : string) (value : prim) (b : t) : t :=
  if negb (detached b) && JsObject.reaches_proto_setter key (frontMatter b) then
    match value with
    | PNull => {| frontMatter := frontMatter b; detached := true; body := body b |}
    | _ => b
    end
  else {| frontMatter := JsObject.define key value (frontMatter b);
          detached := detached b;
          body := body b |}.

Definition component (name : prim) (b : t) : t :=
  assign "component" name b.

Definition param (key : string) (value : prim) (b : t) : t :=
  assign key value b.

Definition push (block : string) (b : t) : t :=
  {| frontMatter := frontMatter b; detached := detached b;
     body := body b ++ [block] |}.

Definition title (text : string) (b : t) : t :=
  push ("# " +:+ text) b.

Definition paragraph (text : string) (b : t) : t :=
  push text b.

Definition heading (level : nat) (text : string) (b : t) : t :=
  push (repeat "#" level +:+ " " +:+ text) b.

(** [list(items)], one block per item; named [list_] to leave [list] to
    the type. *)
Definition list_ (items : list string) (b : t) : t :=
  List.fold_left (fun acc item => push ("- " +:+ item) acc) items b.

Definition image (src alt : string) (b : t) : t :=
  push ("![" +:+ alt +:+ "](" +:+ src +:+ ")") b.

Definition link (text url : string) (attributes : JsObject.t prim) (b : t) : t :=
  let attrs :=
    if (0 <? length (JsObject.keys attributes))%nat
    then "{" +:+ join " " (JsObject.keys attributes) +:+ "}"
    else "" in
  push ("[" +:+ text +:+ "](" +:+ url +:+ ")" +:+ attrs) b.

Section WithEngine.

(** How the engine prints a number ([Number::toString]). *)
Variable number_to_string : number → string.

(** [${v}] in a template literal. *)
Definition to_string (v : prim) : string :=
  match v with
  | PStr s => s
  | PNum n => number_to_string n
  | PBool true => "true"
  | PBool false => "false"
  | PNull => "null"
  | PUndefined => "undefined"
  end.

Definition line (kv : string * prim) : string :=
  fst kv +:+ ": " +:+ to_string (snd kv).

Definition build (b : t) : string :=
  let frontMatterString :=
    if (0 <? length (JsObject.keys (frontMatter b)))%nat
    then "---" +:+ NL
         +:+ join NL (line <$> JsObject.entries (frontMatter b))
         +:+ NL +:+ "---" +:+ NL +:+ NL
    else "" in
  frontMatterString +:+ join (NL +:+ NL) (body b).

(** The rendering the specification describes: front-matter lines in
    key insertion order. *)
Definition build_insertion_order (b : t) : string :=
  match frontMatter b with
  | [] => join (NL +:+ NL) (body b)
  | fm => "---" +:+ NL +:+ join NL (line <$> fm) +:+ NL +:+ "---" +:+ NL +:+ NL
          +:+ join (NL +:+ NL) (body b)
  end.

End WithEngine.

(** The front-matter keys, in insertion order. *)
Definition keys_of (b : t) : list string := fst <$> frontMatter b.

(** A chain of builder calls, as a test writes it. *)
Inductive call : Type :=
| Component (name : prim)
| Param (key : string) (value : prim)
| Title (text : string)
| Paragraph (text : string)
| Heading (level : nat) (text : string)
| List (items : list string)
| Image (src alt : string)
| Link (text url : string) (attributes : JsObject.t prim).

Definition apply (b : t) (c : call) : t :=
  match c with
  | Component n => component n b
  | Param k v => param k v b
  | Title s => title s b
  | Paragraph s => paragraph s b
  | Heading l s => heading l s b
  | List items => list_ items b
  | Image s a => image s a b
  | Link s u attrs => link s u attrs b
  end.

Definition chain (cs : list call) : t := List.fold_left apply cs new.

(** The body blocks one call contributes, and whether a call writes the
    front matter. *)
Definition blocks_of (c : call) : list string :=
  match c with
  | Component _ | Param _ _ => []
  | Title s => ["# " +:+ s]
  | Paragraph s => [s]
  | Heading l s => [repeat "#" l +:+ " " +:+ s]
  | List items => (fun item => "- " +:+ item) <$> items
  | Image s a => ["![" +:+ a +:+ "](" +:+ s +:+ ")"]
  | Link s u attrs =>
      ["[" +:+ s +:+ "](" +:+ u +:+ ")"
       +:+ match JsObject.keys attrs with
           | [] => ""
           | ks => "{" +:+ join " " ks +:+ "}"
           end]
  end.

Definition writes_front_matter (c : call) : bool :=
  match c with
  | Component _ | Param _ _ => true
  | _ => false
  end.

End ContentBuilder.


(** ** Parsed YAML documents and property access *)
Module Yaml.

(** What [yaml.parse] returns: [null], booleans, numbers (an integer as
    [YNum], any other number as [YFloat]), strings, arrays and plain
    objects keyed by strings.  Reading a member of such a value can also
    lead to an object of the engine itself (the function [Object], a
    prototype, a method): [YBuiltin], under the name the engine gives
    it. *)
Local Unset Elimination Schemes.
Inductive value : Type :=
| YNull
| YBool (b : bool)
| YNum (z : Z)
| YFloat (x : spec_float)
| YStr (s : string)
| YSeq (items : list value)
| YMap (props : list (string * value))
| YBuiltin (name : string).
Local Set Elimination Schemes.

(** A JavaScript value that may be [undefined]. *)
Definition js : Type := option value.
Definition undefined : js := None.

(** What the engine and its built-in objects provide. *)
Record engine : Type := {
  (** [v[key]] when [v] has no own property [key]: what the lookup finds
      on the prototype chain of [v] ([Object.prototype],
      [Array.prototype], ...), or on [v] itself when [v] is an object of
      the engine; [undefined] when there is nothing of that name, an
      error when an accessor throws. *)
  inherited : value → string → Js.completion js;
  (** [Array.from(v)] for a value that is neither an array nor a
      string. *)
  array_from : value → Js.completion (list js)
}.

(** The own property [key] of a value: the entries of a mapping, the
    elements and the [length] of an array, the code units and the
    [length] of a string. *)
Definition own_property (v : value) (key : string) : option value :=
  match v with
  | YStr s =>
      if String.eqb key "length" then Some (YNum (Z.of_nat (Js.utf16_length s)))
      else match JsObject.array_index key with
           | Some i => YStr <$> Js.utf16_at (N.to_nat i) s
           | None => None
           end
  | YSeq items =>
      if String.eqb key "length" then Some (YNum (Z.of_nat (length items)))
      else match JsObject.array_index key with
           | Some i => items !! N.to_nat i
           | None => None
           end
  | YMap props => JsObject.get key props
  | YNull | YBool _ | YNum _ | YFloat _ | YBuiltin _ => None
  end.

Section WithEngine.
Variable engine : engine.

(** [v[key]] for a value [v] other than [null] and [undefined]: the own
    property, and without one what [v] inherits. *)
Definition get_property (v : value) (key : string) : Js.completion js :=
  match own_property v key with
  | Some found => Js.Normal (Some found)
  | None => inherited engine v key
  end.

(** [current[key]]: reading a property of [undefined] or [null] throws. *)
Definition member (current : js) (key : string) : Js.completion js :=
  match current with
  | None =>
      Js.Throw (Js.TypeError ("Cannot read properties of undefined (reading '"
                              +:+ key +:+ "')"))
  | Some YNull =>
      Js.Throw (Js.TypeError ("Cannot read properties of null (reading '"
                              +:+ key +:+ "')"))
  | Some v => get_property v key
  end.

(** [current?.[key]]: [undefined] for [undefined] and [null], the member
    otherwise. *)
Definition optional_get (current : js) (key : string) : Js.completion js :=
  match current with
  | None | Some YNull => Js.Normal undefined
  | Some _ => member current key
  end.

End WithEngine.

End Yaml.

(** ** The sandbox: class [TestEnvironment] *)
Module Sandbox.
Import Js.

(** *** The platform the sandbox runs on *)

Inductive entry : Type :=
| File (content : string)
| Dir.

(** The process and its surroundings: working directory, file system by
    absolute path, the paths the process may not unlink, what
    [console.warn] printed, and the argument vector of every subprocess
    launched so far (oldest first). *)
Record world : Type := mkWorld {
  cwd : string;
  files : gmap string entry;
  locked : gset string;
  warnings : list string;
  invocations : list (list string)
}.

Definition set_cwd (d : string) (w : world) : world :=
  mkWorld d (files w) (locked w) (warnings w) (invocations w).
Definition set_files (f : gmap string entry) (w : world) : world :=
  mkWorld (cwd w) f (locked w) (warnings w) (invocations w).
Definition warn (msg : string) (w : world) : world :=
  mkWorld (cwd w) (files w) (locked w) (warnings w ++ [msg]) (invocations w).
Definition launched (argv : list string) (w : world) : world :=
  mkWorld (cwd w) (files w) (locked w) (warnings w) (invocations w ++ [argv]).

(** Asynchronous, effectful code: a world transformer that completes
    normally or abruptly. *)
Definition M (A : Type) : Type := world → completion A * world.

Definition ret {A} (a : A) : M A := fun w => (Normal a, w).
Definition throw {A} (e : exn) : M A := fun w => (Throw e, w).
Definition bind {A B} (m : M A) (k : A → M B) : M B :=
  fun w =>
    match m w with
    | (Normal a, w') => k a w'
    | (Throw e, w') => (Throw e, w')
    end.

(** A pure evaluation inside asynchronous code. *)
Definition lift {A} (c : completion A) : M A := fun w => (c, w).

Definition try_catch {A} (m : M A) (handler : exn → M A) : M A :=
  fun w =>
    match m w with
    | (Normal a, w') => (Normal a, w')
    | (Throw e, w') => handler e w'
    end.

Notation "'let!' x ':=' m 'in' k" := (bind m (fun x => k))
  (at level 10, x name, m at level 100, k at level 200, only parsing).
Notation "m '>>' k" := (bind m (fun _ => k))
  (at level 90, right associativity, only parsing).

(** [m] launches no subprocess. *)
Definition silent {A} (m : M A) : Prop :=
  ∀ w, invocations (m w).2 = invocations w.

(** [m] launches exactly one subprocess, with [argv]. *)
Definition launches {A} (argv : list string) (m : M A) : Prop :=
  ∀ w, invocations (m w).2 = invocations w ++ [argv].

(** [m] leaves the world as it found it. *)
Definition read_only {A} (m : M A) : Prop := ∀ w, (m w).2 = w.

(** [for (const x of xs) { await body(x) }] *)
Fixpoint for_each {A} (body : A → M unit) (xs : list A) : M unit :=
  match xs with
  | [] => ret tt
  | x :: rest => bind (body x) (fun _ => for_each body rest)
  end.

(** [path.join] on segments that are already normalised. *)
Definition path_join (a b : string) : string := a +:+ "/" +:+ b.

Definition resolve (base p : string) : string :=
  if String.prefix "/" p then p else path_join base p.

(** [p] is [root] or lies below it. *)
Definition under (root p : string) : bool :=
  String.eqb p root || String.prefix (root +:+ "/") p.

(** [process.chdir(dir)] *)
Definition chdir (dir : string) : M unit :=
  fun w =>
    let target := resolve (cwd w) dir in
    match files w !! target with
    | Some Dir => (Normal tt, set_cwd target w)
    | _ => (Throw (SystemError
              ("ENOENT: no such file or directory, chdir " +:+ dir)), w)
    end.

(** Something that exists at or below [path] cannot be unlinked. *)
Definition blocked (path : string) (w : world) : bool :=
  bool_decide (set_Exists (fun p => under path p = true ∧ is_Some (files w !! p))
                          (locked w)).

(** [fs.remove(path)]: recursive, silent on a missing path, failing when
    something at or below [path] cannot be unlinked.  What a failing
    removal has deleted by then, and the words of its error, depend on
    the platform ([failure]). *)
Definition remove (failure : string → world → string * gmap string entry)
    (path : string) : M unit :=
  fun w =>
    if blocked path w
    then (Throw (SystemError (failure path w).1), set_files (failure path w).2 w)
    else (Normal tt,
          set_files (filter (fun kv => under path (fst kv) = false) (files w)) w).

(** [fs.mkdtemp(prefix)]: the suffix is the platform's random choice. *)
Definition mkdtemp (parent prefix suffix : string) : M string :=
  fun w =>
    let d := path_join parent (prefix +:+ suffix) in
    match files w !! parent, files w !! d with
    | Some Dir, None => (Normal d, set_files (<[d := Dir]> (files w)) w)
    | Some Dir, Some _ =>
        (Throw (SystemError ("EEXIST: file already exists, mkdtemp " +:+ d)), w)
    | _, _ =>
        (Throw (SystemError ("ENOENT: no such file or directory, mkdtemp " +:+ d)), w)
    end.

(** What became of a launched command: it ran and exited with a code, it
    was ended by a signal, or it could not be started at all. *)
Inductive process : Type :=
| Exited (code : Z) (out err : string)
| Killed (out err : string)
| SpawnFailed.

(** The value [execa] resolves with. *)
Record execa_result : Type := {
  r_stdout : string; r_stderr : string; r_exitCode : Z }.

(** How [execa] settles with its default options: it resolves only for
    exit code 0 and rejects otherwise.  The error it rejects with
    carries the captured output and the exit code, when there is one; its
    message starts with [Command ] and goes on as [execa] words the
    failure, the command line and the output ([wording]). *)
Definition execa_settle (wording : string → list string → process → string)
    (file : string) (args : list string) (p : process)
  : completion execa_result :=
  match p with
  | Exited code out err =>
      if (code =? 0)%Z
      then Normal {| r_stdout := out; r_stderr := err; r_exitCode := 0 |}
      else Throw (ExecaError (Some out) (Some err) (Some code)
                    ("Command " +:+ wording file args p))
  | Killed out err =>
      Throw (ExecaError (Some out) (Some err) None
               ("Command " +:+ wording file args p))
  | SpawnFailed =>
      Throw (ExecaError (Some "") (Some "") None
               ("Command " +:+ wording file args p))
  end.

(** *** The helper class *)

Record t : Type := mkEnv {
  tempDir : option string;
  originalCwd : string
}.

Record run_result : Type := {
  success : bool;
  stdout : string;
  stderr : string;
  exitCode : Z;
  error : option string
}.

(** Option bags of the workflow helpers; a field that is not given is
    [undefined]. *)
Record options : Type := {
  singleSite : bool;
  module : option string;
  site : option string;
  page : option string;
  position : option string;
  locale : option string
}.

(** The default [options = {}]. *)
Definition no_options : options :=
  {| singleSite := false; module := None; site := None; page := None;
     position := None; locale := None |}.

(** The value of an option that was tested truthy. *)
Definition the (o : option string) : string := default "" o.

Section WithTool.

(** The content-management tool: given its argument vector, the
    directory it is started in and the file system, what the process
    does and the file system it leaves behind. *)
Variable uniweb : list string → string → gmap string entry
                  → process * gmap string entry.

(** How [execa] words a failure in its error message, after the
    leading [Command ]. *)
Variable execa_wording : string → list string → process → string.

(** A recursive removal that fails part-way: the message of its error
    and the file system it leaves. *)
Variable removal_failure : string → world → string * gmap string entry.

(** The directory exported by the [temp-dir] package. *)
Variable temporaryDirectory : string.

(** [yaml.parse]. *)
Variable yaml_parse : string → completion Yaml.value.

(** The engine's built-in objects. *)
Variable engine : Yaml.engine.

(** [expect(actual).toEqual(expected)] holds. *)
Variable toEqual : Yaml.js → Yaml.js → bool.

(** How a template literal renders a value. *)
Variable render : Yaml.js → string.

(** [constructor()] *)
Definition new : M t :=
  fun w => (Normal {| tempDir := None; originalCwd := cwd w |}, w).

(** [setup()]; assigns [this.tempDir], so it also returns [this]. *)
Definition setup (suffix : string) (this : t) : world → completion string * t * world :=
  fun w =>
    let tempBase := temporaryDirectory in
    match mkdtemp tempBase "uniweb-test-" suffix w with
    | (Throw e, w1) => (Throw e, this, w1)
    | (Normal d, w1) =>
        let this' := {| tempDir := Some d; originalCwd := originalCwd this |} in
        match chdir d w1 with
        | (Throw e, w2) => (Throw e, this', w2)
        | (Normal _, w2) => (Normal d, this', w2)
        end
    end.

Definition cleanup (this : t) : M unit :=
  if truthy (tempDir this) then
    try_catch
      (chdir (originalCwd this) >> remove removal_failure (the (tempDir this)))
      (fun error w =>
         (Normal tt,
          warn ("Warning: Could not clean up temp directory "
                +:+ the (tempDir this) +:+ ": " +:+ message error) w))
  else ret tt.

(** [await execa("uniweb", args, { cwd: this.tempDir, ...options })] with
    the default [options = {}], as every helper calls it: the promise's
    settlement; a missing [cwd] means the process's own. *)
Definition execa (file : string) (args : list string) (dir : option string)
  : M execa_result :=
  fun w =>
    let '(p, files') := uniweb args (default (cwd w) dir) (files w) in
    (execa_settle execa_wording file args p, launched args (set_files files' w)).

Definition runUniweb (this : t) (args : list string) : M run_result :=
  try_catch
    (let! result := execa "uniweb" args (tempDir this) in
     ret {| success := true;
            stdout := r_stdout result;
            stderr := r_stderr result;
            exitCode := r_exitCode result;
            error := None |})
    (fun error_ =>
       ret {| success := false;
              stdout := or_else (stdout_of error_) "";
              stderr := or_else (stderr_of error_) "";
              exitCode := num_or_else (exitCode_of error_) 1;
              error := Some (message error_) |}).

(** [path.join(this.tempDir, filePath)]; [path.join] rejects [null]. *)
Definition in_sandbox (this : t) (filePath : string) : M string :=
  match tempDir this with
  | Some d => ret (path_join d filePath)
  | None => throw (TypeError "The path argument must be of type string. Received null")
  end.


Definition fileExists (this : t) (filePath : string) : M bool :=
  let! full := in_sandbox this filePath in
  fun w => (Normal (bool_decide (is_Some (files w !! full))), w).

Definition readFile (this : t) (filePath : string) : M string :=
  let! full := in_sandbox this filePath in
  fun w =>
    match files w !! full with
    | Some (File content) => (Normal content, w)
    | Some Dir =>
        (Throw (SystemError ("EISDIR: illegal operation on a directory, read " +:+ full)), w)
    | None =>
        (Throw (SystemError ("ENOENT: no such file or directory, open " +:+ full)), w)
    end.

Definition readYaml (this : t) (filePath : string) : M Yaml.value :=
  let! content := readFile this filePath in
  lift (yaml_parse content).

(** [expect(actual, message).toBe(expected)] on booleans. *)
Definition expect_toBe (actual : bool) (msg : string) (expected : bool) : M unit :=
  if Bool.eqb actual expected then ret tt else throw (AssertionError msg).

(** [expect(actual, message).toContain(item)] on a string. *)
Definition expect_toContain (actual : string) (msg : string) (item : string) : M unit :=
  if includes item actual then ret tt else throw (AssertionError msg).

(** [element === item] for a string [item]. *)
Definition is_string (item : string) (element : Yaml.js) : bool :=
  match element with
  | Some (Yaml.YStr s) => String.eqb s item
  | _ => false
  end.

(** Whether [toContain(item)] finds the string [item] in a value: a
    string must include it; [undefined] and [null] contain nothing;
    every other value is first turned into an array with [Array.from]
    (an array into its elements, anything else as the engine does it),
    which must hold an element equal to the item. *)
Definition contains (actual : Yaml.js) (item : string) : completion bool :=
  match actual with
  | None | Some Yaml.YNull => Normal false
  | Some (Yaml.YStr s) => Normal (includes item s)
  | Some (Yaml.YSeq items) => Normal (existsb (is_string item) (Some <$> items))
  | Some v =>
      match Yaml.array_from engine v with
      | Normal elements => Normal (existsb (is_string item) elements)
      | Throw e => Throw e
      end
  end.

(** [expect(actual, message).toContain(item)] on a value. *)
Definition expect_value_toContain (actual : Yaml.js) (msg : string) (item : string) : M unit :=
  match contains actual item with
  | Normal true => ret tt
  | Normal false => throw (AssertionError msg)
  | Throw e => throw e
  end.

Definition expect_toEqual (actual : Yaml.js) (msg : string) (expected : Yaml.js) : M unit :=
  if toEqual actual expected then ret tt else throw (AssertionError msg).

(** *** Assertion helpers *)

Definition expectFileExists (this : t) (filePath : string) (message : option string) : M unit :=
  let! exists_ := fileExists this filePath in
  expect_toBe exists_
    (or_else message ("Expected file " +:+ filePath +:+ " to exist")) true.

Definition expectFileContains (this : t) (filePath content : string)
    (message : option string) : M unit :=
  expectFileExists this filePath None >>
  let! fileContent := readFile this filePath in
  expect_toContain fileContent
    (or_else message ("Expected " +:+ filePath +:+ " to contain "
                      +:+ DQ +:+ content +:+ DQ))
    content.

(** [path.split(".").reduce((current, key) => current?.[key], obj)] *)
Definition getNestedProperty (obj : Yaml.js) (path : string) : completion Yaml.js :=
  reduce (Yaml.optional_get engine) (split "." path) obj.

Definition expectYamlProperty (this : t) (filePath property : string)
    (expectedValue : Yaml.js) (message : option string) : M unit :=
  expectFileExists this filePath None >>
  let! yamlContent := readYaml this filePath in
  let! actualValue := lift (getNestedProperty (Some yamlContent) property) in
  expect_toEqual actualValue
    (or_else message ("Expected " +:+ filePath +:+ "." +:+ property
                      +:+ " to equal " +:+ render expectedValue))
    expectedValue.

Definition expectYamlContains (this : t) (filePath property expectedValue : string)
    (message : option string) : M unit :=
  expectFileExists this filePath None >>
  let! yamlContent := readYaml this filePath in
  let! actualValue := lift (getNestedProperty (Some yamlContent) property) in
  expect_value_toContain actualValue
    (or_else message ("Expected " +:+ filePath +:+ "." +:+ property
                      +:+ " to contain " +:+ expectedValue))
    expectedValue.

(** *** Command helpers *)

Definition expectCommandSuccess (this : t) (args : list string) : M run_result :=
  let! result := runUniweb this args in
  expect_toBe (success result)
    ("Expected 'uniweb " +:+ join " " args +:+ "' to succeed. Error: "
     +:+ or_else (error result) (stderr result)) true >>
  ret result.


(** *** Workflow helpers *)

(** The argument vector [initProject] builds. *)
Definition initProject_args (name : string) (options : options) : list string :=
  let args := ["init"; name] in
  let args := if singleSite options then args ++ ["--single-site"] else args in
  let args := if truthy (module options)
              then args ++ ["--module"; the (module options)] else args in
  let args := if truthy (site options)
              then args ++ ["--site"; the (site options)] else args in
  args.

Definition initProject (this : t) (name : string) (options : options) : M t :=
  let args := initProject_args name options in
  expectCommandSuccess this args >>
  (if negb (String.eqb name ".") then chdir name else ret tt) >>
  ret this.

Definition addPage_args (name : string) (options : options) : list string :=
  let args := ["add"; "page"; name] in
  let args := if truthy (site options)
              then args ++ ["--site"; the (site options)] else args in
  args.

Definition addPage (this : t) (name : string) (options : options) : M t :=
  let args := addPage_args name options in
  expectCommandSuccess this args >>
  let pagePath :=
    if truthy (site options)
    then "sites/" +:+ the (site options) +:+ "/pages/" +:+ name
    else "pages/" +:+ name in
  expectFileExists this (pagePath +:+ "/page.yml") None >>
  ret this.

Definition addSection_args (name : string) (options : options) : list string :=
  let args := ["add"; "section"; name] in
  let args := if truthy (page options)
              then args ++ ["--page"; the (page options)] else args in
  let args := if truthy (site options)
              then args ++ ["--site"; the (site options)] else args in
  let args := if truthy (position options)
              then args ++ ["--position"; the (position options)] else args in
  args.

Definition addSection (this : t) (name : string) (options : options) : M t :=
  let args := addSection_args name options in
  expectCommandSuccess this args >>
  let basePath :=
    if truthy (site options)
    then "sites/" +:+ the (site options) +:+ "/pages" else "pages" in
  let pagePath :=
    if truthy (page options)
    then basePath +:+ "/" +:+ the (page options) else basePath in
  expectFileExists this (pagePath +:+ "/" +:+ name +:+ ".md") None >>
  expectYamlContains this (pagePath +:+ "/page.yml") "sections" name None >>
  ret this.

Definition setSection_args (name content : string) (options : options) : list string :=
  let args := ["set"; "section"; name] in
  let args := if truthy (page options)
              then args ++ ["--page"; the (page options)] else args in
  let args := if truthy (site options)
              then args ++ ["--site"; the (site options)] else args in
  let args := if truthy (locale options)
              then args ++ ["--locale"; the (locale options)] else args in
  let args := args ++ ["--body"; content] in
  args.

(** The path [setSection] verifies. *)
Definition setSection_filePath (name : string) (options : options) : string :=
  let basePath :=
    if truthy (site options)
    then "sites/" +:+ the (site options) +:+ "/pages" else "pages" in
  let pagePath :=
    if truthy (page options)
    then basePath +:+ "/" +:+ the (page options) else basePath in
  if truthy (locale options)
  then "locales/" +:+ the (locale options) +:+ "/" +:+ pagePath
       +:+ "/" +:+ name +:+ ".md"
  else pagePath +:+ "/" +:+ name +:+ ".md".

(** [content.split("\n")[0]]; [split] never returns an empty array. *)
Definition first_line (content : string) : string :=
  match split nl content with
  | line :: _ => line
  | [] => EmptyString
  end.

(** The check that follows the command in [setSection]. *)
Definition setSection_verify (this : t) (name content : string) (options : options) : M unit :=
  let filePath := setSection_filePath name options in
  expectFileContains this filePath (first_line content) None.

Definition setSection (this : t) (name content : string) (options : options) : M t :=
  let args := setSection_args name content options in
  expectCommandSuccess this args >>
  setSection_verify this name content options >>
  ret this.

(** *** The other assertion and command helpers *)

Definition expectFileNotExists (this : t) (filePath : string)
    (message : option string) : M unit :=
  let! exists_ := fileExists this filePath in
  expect_toBe exists_
    (or_else message ("Expected file " +:+ filePath +:+ " to not exist")) false.

(** [expectFilesExist(...filePaths)] *)
Definition expectFilesExist (this : t) (filePaths : list string) : M unit :=
  for_each (fun filePath => expectFileExists this filePath None) filePaths.

(** [result.stderr || result.error] *)
Definition stderr_or_error (result : run_result) : option string :=
  if String.eqb (stderr result) "" then error result else Some (stderr result).

Definition expectCommandFailure (this : t) (args : list string)
    (expectedError message : option string) : M run_result :=
  let! result := runUniweb this args in
  expect_toBe (success result)
    (or_else message ("Expected 'uniweb " +:+ join " " args +:+ "' to fail"))
    false >>
  (if truthy expectedError
   then expect_value_toContain (Yaml.YStr <$> stderr_or_error result)
          ("Expected error to contain " +:+ DQ +:+ the expectedError +:+ DQ)
          (the expectedError)
   else ret tt) >>
  ret result.

Definition addLocale_args (locales : string) (options : options) : list string :=
  let args := ["add"; "locale"; locales] in
  let args := if truthy (site options)
              then args ++ ["--site"; the (site options)] else args in
  args.

(** The directory [addLocale] expects for one locale. *)
Definition addLocale_localePath (locale : string) (options : options) : string :=
  if truthy (site options)
  then "sites/" +:+ the (site options) +:+ "/locales/" +:+ locale
  else "locales/" +:+ locale.

Definition addLocale (this : t) (locales : string) (options : options) : M t :=
  let args := addLocale_args locales options in
  expectCommandSuccess this args >>
  let localeList := split "," locales in
  for_each (fun locale =>
              expectFileExists this (addLocale_localePath locale options) None)
           localeList >>
  ret this.

(** *** Structure verification helpers *)

(** [expectStandardProjectStructure(type)]; a caller that gives no type
    gets ["minimal"]. *)
Definition expectStandardProjectStructure (this : t) (type : string) : M unit :=
  expectFilesExist this ["package.json"; "uniweb.config.js"] >>
  if String.eqb type "single-site" then
    expectFilesExist this ["site.yml"; "pages"] >>
    expectFileNotExists this "sites" None
  else if String.eqb type "workspace" then
    expectFileExists this "sites" None
  else ret tt.

(** [expectStandardSiteStructure(sitePath)]; a caller that gives no path
    gets ["."]. *)
Definition expectStandardSiteStructure (this : t) (sitePath : string) : M unit :=
  let basePath := if String.eqb sitePath "." then "" else sitePath +:+ "/" in
  expectFilesExist this [basePath +:+ "site.yml"; basePath +:+ "pages"].

Definition expectStandardPageStructure (this : t) (pagePath : string) : M unit :=
  expectFilesExist this [pagePath +:+ "/page.yml"].

(** [expectProjectType(type)] of [TestEnvironmentExtensions], mixed into
    the class. *)
Definition expectProjectType (this : t) (type : string) : M unit :=
  if String.eqb type "blog" then
    expectFilesExist this ["pages/blog"; "pages/about"; "pages/contact"]
  else if String.eqb type "portfolio" then
    expectFilesExist this ["pages/work"; "pages/about"; "pages/contact"]
  else if String.eqb type "ecommerce" then
    expectFilesExist this ["pages/products"; "pages/cart"; "pages/checkout"]
  else ret tt.

(** *** Fluent navigation *)

Definition cd (this : t) (directory : string) : M t :=
  let! full := in_sandbox this directory in
  chdir full >>
  ret this.

Definition navigateToProject (this : t) (name : string) : M t :=
  cd this name.

Definition navigateToSite (this : t) (siteName : string) : M t :=
  cd this ("sites/" +:+ siteName).

Definition navigateToPage (this : t) (pageName : string) (siteName : option string)
  : M t :=
  let basePath :=
    if truthy siteName then "sites/" +:+ the siteName +:+ "/pages" else "pages" in
  cd this (basePath +:+ "/" +:+ pageName).

End WithTool.
End Sandbox.

(** ** BatchOperations *)
Module BatchOperations.
Import Js.

(** A queued record [{ type, name, options }] or
    [{ type, name, content, options }]. *)
Record operation : Type := {
  type : string;
  name : string;
  content : option string;
  options : Sandbox.options
}.

Record t : Type := mk {
  env : Sandbox.t;
  operations : list operation
}.

(** [constructor(env)] *)
Definition new (env : Sandbox.t) : t := {| env := env; operations := [] |}.

(** The declaration methods push one record and return [this]. *)
Definition addPage (name : string) (options : Sandbox.options) (this : t) : t :=
  {| env := env this;
     operations := operations this ++
       [{| type := "addPage"; name := name; content := None; options := options |}] |}.

Definition addSection (name : string) (options : Sandbox.options) (this : t) : t :=
  {| env := env this;
     operations := operations this ++
       [{| type := "addSection"; name := name; content := None; options := options |}] |}.

Definition setSection (name content : string) (options : Sandbox.options) (this : t) : t :=
  {| env := env this;
     operations := operations this ++
       [{| type := "setSection"; name := name; content := Some content;
           options := options |}] |}.

(** The record types the [switch] of [execute] has a case for. *)
Definition handled (op : operation) : bool :=
  String.eqb (type op) "addPage" || String.eqb (type op) "addSection"
  || String.eqb (type op) "setSection".

Section WithTool.
Variable uniweb : list string → string → gmap string Sandbox.entry
                  → Sandbox.process * gmap string Sandbox.entry.
Variable execa_wording : string → list string → Sandbox.process → string.
Variable yaml_parse : string → completion Yaml.value.
Variable engine : Yaml.engine.

Local Abbreviation M := Sandbox.M.

(** The body of the loop: the [switch] on [op.type].  A record that
    carries no content cannot come from [setSection] above; handing
    [undefined] to the sandbox's [setSection] fails there. *)
Definition dispatch (env : Sandbox.t) (op : operation) : M unit :=
  if String.eqb (type op) "addPage" then
    Sandbox.bind (Sandbox.addPage uniweb execa_wording env (name op) (options op))
                 (fun _ => Sandbox.ret tt)
  else if String.eqb (type op) "addSection" then
    Sandbox.bind (Sandbox.addSection uniweb execa_wording yaml_parse engine env (name op)
                    (options op))
                 (fun _ => Sandbox.ret tt)
  else if String.eqb (type op) "setSection" then
    match content op with
    | Some c =>
        Sandbox.bind (Sandbox.setSection uniweb execa_wording env (name op) c (options op))
                     (fun _ => Sandbox.ret tt)
    | None => Sandbox.throw (TypeError "content is undefined")
    end
  else Sandbox.ret tt.

(** [for (const op of this.operations) { ... }] *)
Fixpoint each (env : Sandbox.t) (ops : list operation) : M unit :=
  match ops with
  | [] => Sandbox.ret tt
  | op :: rest => Sandbox.bind (dispatch env op) (fun _ => each env rest)
  end.

(** [execute()]: the completion, the batch object afterwards and the
    world afterwards. *)
Definition execute (this : t)
  : Sandbox.world → completion Sandbox.t * t * Sandbox.world :=
  fun w =>
    match each (env this) (operations this) w with
    | (Normal _, w') => (Normal (env this), this, w')
    | (Throw e, w') => (Throw e, this, w')
    end.

End WithTool.
End BatchOperations.

(** ** PerformanceHelper *)
Module PerformanceHelper.
Import Js.

(** The helper: [this.env] and the own properties of the plain object
    [this.metrics], which hold numbers. *)
Record t : Type := mk {
  env : Sandbox.t;
  metrics : JsObject.t Z
}.

(** [constructor(env)] *)
Definition new (env : Sandbox.t) : t := {| env := env; metrics := JsObject.empty |}.

(** [{ result, duration }] *)
Record timed (R : Type) : Type := { result : R; duration : Z }.
Arguments result {R} _.
Arguments duration {R} _.

Section WithClock.
Context {W R : Type}.

(** [Date.now()]: the wall clock, in milliseconds, read off the world. *)
Variable now : W → Z.

(** [timeOperation(name, operation)]: the completion, the helper object
    afterwards and the world afterwards.  The operation is any
    asynchronous code: it may fail, change the world, and use the helper
    that times it, so it is given the helper and hands it back. *)
Definition timeOperation (name : string)
    (operation : t → W → completion R * t * W)
    (this : t) : W → completion (timed R) * t * W :=
  fun w =>
    let start := now w in
    match operation this w with
    | (Throw e, this1, w1) => (Throw e, this1, w1)
    | (Normal result, this1, w1) =>
        let duration := (now w1 - start)%Z in
        let this' := {| env := env this1;
                        metrics := JsObject.set name duration (metrics this1) |} in
        (Normal {| result := result; duration := duration |}, this', w1)
    end.

End WithClock.

(** The metrics object as a value. *)
Definition metrics_object (this : t) : Yaml.value :=
  Yaml.YMap (prod_map id Yaml.YNum <$> metrics this).

Section WithEngine.
Variable engine : Yaml.engine.

(** How a template literal renders a value. *)
Variable render : Yaml.js → string.

(** [expect(actual, message).toBeLessThan(expected)]: the matcher
    refuses a value that is not a number. *)
Definition expect_toBeLessThan (actual : Yaml.js) (msg : string) (expected : Z)
  : completion unit :=
  match actual with
  | Some (Yaml.YNum d) =>
      if (d <? expected)%Z then Normal tt else Throw (AssertionError msg)
  | Some (Yaml.YFloat x) =>
      if float_ltb x expected then Normal tt else Throw (AssertionError msg)
  | _ => Throw (TypeError "actual value must be number or bigint")
  end.

(** [expectOperationFasterThan(operationName, maxMs)] *)
Definition expectOperationFasterThan (operationName : string) (maxMs : Z)
    (this : t) : completion unit :=
  match Yaml.get_property engine (metrics_object this) operationName with
  | Throw e => Throw e
  | Normal duration =>
      expect_toBeLessThan duration
        ("Expected " +:+ operationName +:+ " to complete in under "
         +:+ render (Some (Yaml.YNum maxMs)) +:+ "ms, but took "
         +:+ render duration +:+ "ms")
        maxMs
  end.

End WithEngine.

End PerformanceHelper.


(** ** AssertionChain *)
Module AssertionChain.
Import Js.

(** The queue holds closures; each one, when called, runs one assertion
    helper of the environment.  ([directoryStructure] is not modelled.) *)
Record t : Type := mk {
  env : Sandbox.t;
  assertions : list (Sandbox.M unit)
}.

(** [constructor(env)] *)
Definition new (env : Sandbox.t) : t := {| env := env; assertions := [] |}.

Definition push (assertion : Sandbox.M unit) (this : t) : t :=
  {| env := env this; assertions := assertions this ++ [assertion] |}.

Section WithMatchers.
Variable yaml_parse : string → completion Yaml.value.
Variable engine : Yaml.engine.
Variable toEqual : Yaml.js → Yaml.js → bool.
Variable render : Yaml.js → string.

Definition fileExists (path : string) (message : option string) (this : t) : t :=
  push (Sandbox.expectFileExists (env this) path message) this.

Definition fileContains (path content : string) (message : option string)
    (this : t) : t :=
  push (Sandbox.expectFileContains (env this) path content message) this.

Definition yamlProperty (path property : string) (value : Yaml.js)
    (message : option string) (this : t) : t :=
  push (Sandbox.expectYamlProperty yaml_parse engine toEqual render (env this)
          path property value message) this.

(** [for (const assertion of this.assertions) { await assertion() }] *)
Definition verify (this : t) : Sandbox.M unit :=
  Sandbox.for_each (fun assertion => assertion) (assertions this).

(** A declaration made on a chain. *)
Inductive declaration : Type :=
| FileExists (path : string) (message : option string)
| FileContains (path content : string) (message : option string)
| YamlProperty (path property : string) (value : Yaml.js) (message : option string).

Definition declare (c : t) (d : declaration) : t :=
  match d with
  | FileExists p m => fileExists p m c
  | FileContains p x m => fileContains p x m c
  | YamlProperty p k v m => yamlProperty p k v m c
  end.

(** [env.assert().fileExists(...).fileContains(...)...] *)
Definition declared (env : Sandbox.t) (ds : list declaration) : t :=
  List.fold_left declare ds (new env).

(** The helper call a declaration stands for. *)
Definition check (env : Sandbox.t) (d : declaration) : Sandbox.M unit :=
  match d with
  | FileExists p m => Sandbox.expectFileExists env p m
  | FileContains p x m => Sandbox.expectFileContains env p x m
  | YamlProperty p k v m =>
      Sandbox.expectYamlProperty yaml_parse engine toEqual render env p k v m
  end.

End WithMatchers.
End AssertionChain.

(** ** The behaviour as the specification words it

    Definitions written from the specification's sentences, to be compared
    with the helpers above. *)
Module Described.
Import Js.

(** An option is given when the helper's test on it succeeds: it is
    defined and not the empty string. *)
Definition given (o : option string) : bool := truthy o.

(** A flag followed by its value, when the option is given. *)
Definition flag (name : string) (o : option string) : list string :=
  match o with
  | Some v => if given o then [name; v] else []
  | None => []
  end.

Definition init_argv (name : string) (o : Sandbox.options) : list string :=
  ["init"; name]
    ++ (if Sandbox.singleSite o then ["--single-site"] else [])
    ++ flag "--module" (Sandbox.module o)
    ++ flag "--site" (Sandbox.site o).

Definition add_section_argv (name : string) (o : Sandbox.options) : list string :=
  ["add"; "section"; name]
    ++ flag "--page" (Sandbox.page o)
    ++ flag "--site" (Sandbox.site o)
    ++ flag "--position" (Sandbox.position o).

Definition set_section_argv (name content : string) (o : Sandbox.options) : list string :=
  ["set"; "section"; name]
    ++ flag "--page" (Sandbox.page o)
    ++ flag "--site" (Sandbox.site o)
    ++ flag "--locale" (Sandbox.locale o)
    ++ ["--body"; content].

(** A path segment contributed by an option, when it is given. *)
Definition segment (before : string) (o : option string) (after : string) : string :=
  match o with
  | Some v => if given o then before +:+ v +:+ after else ""
  | None => ""
  end.

(** Base path [pages] or [sites/<site>/pages], extended with [/<page>]
    and [/<name>.md], the whole prefixed with [locales/<locale>/]. *)
Definition section_path (name : string) (o : Sandbox.options) : string :=
  segment "locales/" (Sandbox.locale o) "/"
    +:+ segment "sites/" (Sandbox.site o) "/"
    +:+ "pages"
    +:+ segment "/" (Sandbox.page o) ""
    +:+ "/" +:+ name +:+ ".md".

(** One step down a parsed document: the value under [key]; [undefined]
    when there is nothing to look into ([undefined], [null]) or the key is
    missing. *)
Definition step (current : Yaml.js) (key : string) : Yaml.js :=
  match current with
  | None | Some Yaml.YNull => Yaml.undefined
  | Some v => Yaml.own_property v key
  end.

(** Descending through the keys of a dotted path. *)
Definition descend (obj : Yaml.js) (keys : list string) : Yaml.js :=
  List.fold_left step keys obj.

(** On the way down, every key is an own property of the value reached
    or is missing altogether: where the value has no own property of
    that name, it inherits none either. *)
Fixpoint own_path (engine : Yaml.engine) (current : Yaml.js) (keys : list string)
  : Prop :=
  match keys with
  | [] => True
  | key :: rest =>
      match current with
      | None | Some Yaml.YNull => True
      | Some v =>
          match Yaml.own_property v key with
          | Some found => own_path engine (Some found) rest
          | None => Yaml.inherited engine v key = Normal Yaml.undefined
          end
      end
  end.

(** What a launched command leaves for the result record. *)
Definition exited_zero (p : Sandbox.process) : bool :=
  match p with
  | Sandbox.Exited code _ _ => (code =? 0)%Z
  | _ => false
  end.

Definition captured_stdout (p : Sandbox.process) : string :=
  match p with
  | Sandbox.Exited _ out _ | Sandbox.Killed out _ => out
  | Sandbox.SpawnFailed => ""
  end.

Definition captured_stderr (p : Sandbox.process) : string :=
  match p with
  | Sandbox.Exited _ _ err | Sandbox.Killed _ err => err
  | Sandbox.SpawnFailed => ""
  end.

(** The exit code, or 1 when there is none. *)
Definition exit_code_or_1 (p : Sandbox.process) : Z :=
  match p with
  | Sandbox.Exited code _ _ => code
  | _ => 1%Z
  end.

(** A path of the sandbox directory exists (as a file or a directory), or
    does not. *)
Definition present (this : Sandbox.t) (w : Sandbox.world) (filePath : string) : Prop :=
  ∃ d, Sandbox.tempDir this = Some d
       ∧ is_Some (Sandbox.files w !! Sandbox.path_join d filePath).

Definition absent (this : Sandbox.t) (w : Sandbox.world) (filePath : string) : Prop :=
  ∃ d, Sandbox.tempDir this = Some d
       ∧ Sandbox.files w !! Sandbox.path_join d filePath = None.

(** A declaration made on a batch. *)
Inductive declaration : Type :=
| AddPage (name : string) (options : Sandbox.options)
| AddSection (name : string) (options : Sandbox.options)
| SetSection (name content : string) (options : Sandbox.options).

Definition declare (b : BatchOperations.t) (d : declaration) : BatchOperations.t :=
  match d with
  | AddPage n o => BatchOperations.addPage n o b
  | AddSection n o => BatchOperations.addSection n o b
  | SetSection n c o => BatchOperations.setSection n c o b
  end.

(** [env.batch().addPage(...).setSection(...)...] *)
Definition declared (env : Sandbox.t) (ds : list declaration) : BatchOperations.t :=
  List.fold_left declare ds (BatchOperations.new env).

(** The typed record a declaration stands for. *)
Definition record_of (d : declaration) : BatchOperations.operation :=
  match d with
  | AddPage n o =>
      {| BatchOperations.type := "addPage"; BatchOperations.name := n;
         BatchOperations.content := None; BatchOperations.options := o |}
  | AddSection n o =>
      {| BatchOperations.type := "addSection"; BatchOperations.name := n;
         BatchOperations.content := None; BatchOperations.options := o |}
  | SetSection n c o =>
      {| BatchOperations.type := "setSection"; BatchOperations.name := n;
         BatchOperations.content := Some c; BatchOperations.options := o |}
  end.

(** The argument vector with which the sandbox method of that name
    launches the tool. *)
Definition argv_of (d : declaration) : list string :=
  match d with
  | AddPage n o => Sandbox.addPage_args n o
  | AddSection n o => Sandbox.addSection_args n o
  | SetSection n c o => Sandbox.setSection_args n c o
  end.

Section WithTool.
Variable uniweb : list string → string → gmap string Sandbox.entry
                  → Sandbox.process * gmap string Sandbox.entry.
Variable execa_wording : string → list string → Sandbox.process → string.
Variable yaml_parse : string → completion Yaml.value.
Variable engine : Yaml.engine.

(** The sandbox method a declaration names, called on [env]. *)
Definition call (env : Sandbox.t) (d : declaration) : Sandbox.M Sandbox.t :=
  match d with
  | AddPage n o => Sandbox.addPage uniweb execa_wording env n o
  | AddSection n o => Sandbox.addSection uniweb execa_wording yaml_parse engine env n o
  | SetSection n c o => Sandbox.setSection uniweb execa_wording env n c o
  end.

(** The calls made one after the other, each awaited, stopping at the
    first that fails. *)
Fixpoint in_order (env : Sandbox.t) (ds : list declaration) : Sandbox.M unit :=
  match ds with
  | [] => Sandbox.ret tt
  | d :: rest =>
      fun w =>
        match call env d w with
        | (Normal _, w') => in_order env rest w'
        | (Throw e, w') => (Throw e, w')
        end
  end.

End WithTool.
End Described.

(** ** A concrete sandbox, for running the helpers *)
Module Demo.
Import Js Sandbox.

Definition home : string := "/home/dev/uniweb-cli-tests".
Definition tmp : string := "/tmp".
Definition sandbox : string := "/tmp/uniweb-test-k3x9".

(** A freshly constructed helper object and the world around it. *)
Definition fresh : t := {| tempDir := None; originalCwd := home |}.

Definition start : world :=
  {| cwd := home;
     files := {[ tmp := Dir; home := Dir ]};
     locked := ∅;
     warnings := [];
     invocations := [] |}.

(** The object after [setup()]. *)
Definition env : t := {| tempDir := Some sandbox; originalCwd := home |}.

(** A world in which a test has run inside the sandbox. *)
Definition used : world :=
  {| cwd := sandbox;
     files := {[ tmp := Dir; home := Dir; sandbox := Dir;
                 "/tmp/uniweb-test-k3x9/pages" := Dir;
                 "/tmp/uniweb-test-k3x9/pages/about" := Dir;
                 "/tmp/uniweb-test-k3x9/pages/about/page.yml" := File "sections: [hero]";
                 "/tmp/uniweb-test-k3x9/pages/about/hero.md" := File "# Old heading" ]};
     locked := ∅;
     warnings := [];
     invocations := [] |}.

(** The same world, with a file of the sandbox that cannot be removed. *)
Definition stuck : world :=
  {| cwd := sandbox; files := files used;
     locked := {[ "/tmp/uniweb-test-k3x9/pages/about/hero.md" ]};
     warnings := []; invocations := [] |}.

Definition on_about : options :=
  {| singleSite := false; module := None; site := None;
     page := Some "about"; position := None; locale := None |}.

(** A stand-in for the tool: [add page <name>] writes the page manifest
    below the directory it is started in and exits with 0; every other
    command exits with 2. *)
Definition tool (args : list string) (dir : string) (fs : gmap string entry)
  : process * gmap string entry :=
  match args with
  | "add" :: "page" :: name :: _ =>
      (Exited 0 "" "",
       <[ dir +:+ "/pages/" +:+ name +:+ "/page.yml" := File "sections: []" ]> fs)
  | _ => (Exited 2 "" "unknown command", fs)
  end.

(** A stand-in for a removal that fails: it has deleted all it could. *)
Definition removal_failure (path : string) (w : world) : string * gmap string entry :=
  ("EPERM: operation not permitted, unlink " +:+ path,
   filter (fun kv => negb (under path kv.1) || blocked kv.1 w = true) (files w)).

(** A stand-in for the wording of [execa]'s error message. *)
Definition wording (file : string) (args : list string) (p : process) : string :=
  "failed: " +:+ join " " (file :: args).

Definition parse (content : string) : completion Yaml.value :=
  Normal Yaml.YNull.

(** A parsed page manifest. *)
Definition manifest : Yaml.value :=
  Yaml.YMap [("title", Yaml.YNull);
             ("sections", Yaml.YSeq [Yaml.YStr "hero"; Yaml.YStr "skills"])].

(** A stand-in for the engine.  Of all that values inherit it knows the
    [constructor] of a plain object, which is the function [Object], and
    the [name] of that function; [Array.from] treats a plain object as
    array-like when its [length] is a small integer, and yields an empty
    array for everything else. *)
Definition engine : Yaml.engine :=
  {| Yaml.inherited v key :=
       match v with
       | Yaml.YMap _ =>
           if String.eqb key "constructor"
           then Normal (Some (Yaml.YBuiltin "Object")) else Normal Yaml.undefined
       | Yaml.YBuiltin name =>
           if String.eqb name "Object" && String.eqb key "name"
           then Normal (Some (Yaml.YStr "Object")) else Normal Yaml.undefined
       | _ => Normal Yaml.undefined
       end;
     Yaml.array_from v :=
       match v with
       | Yaml.YMap props =>
           match JsObject.get "length" props with
           | Some (Yaml.YNum n) =>
               Normal ((fun i : nat => JsObject.get (pretty i) props)
                         <$> seq 0 (Z.to_nat n))
           | _ => Normal []
           end
       | _ => Normal []
       end |}.

(** A stand-in for the way the engine prints a number: an integer in
    decimal digits. *)
Definition number_to_string (n : number) : string :=
  match n with
  | Int z => pretty z
  | Float _ => "NaN"
  end.

End Demo.

(** * Properties *)

(** ** Strings *)
Module JsFacts.
Import Js.

Lemma append_cons (x : ascii) (a b : string) :
  String x a +:+ b = String x (a +:+ b).
Proof. reflexivity. Qed.

Lemma append_assoc (a b c : string) : (a +:+ b) +:+ c = a +:+ b +:+ c.
Proof. induction a as [|x a IH]; [done|]. by rewrite !append_cons, IH. Qed.

(** [split] always returns at least one piece. *)
Lemma split_cons sep s : ∃ first rest, split sep s = first :: rest.
Proof.
  induction s as [|c s [h [t IH]]]; simpl; [by eexists _, _|].
  destruct (Ascii.eqb c sep); [by eexists _, _|].
  rewrite IH. by eexists _, _.
Qed.

(** Every string includes the empty string. *)
Lemma includes_empty hay : includes "" hay = true.
Proof. destruct hay; simpl; done. Qed.

End JsFacts.

(** ** Own-property order of objects *)
Module JsObjectFacts.
Import JsObject.

Section WithValue.
Context {V : Type}.
Implicit Types (o : t V) (l : list (string * V)) (kv : string * V).

Lemma insert_sorted_perm kv l : insert_sorted kv l ≡ₚ kv :: l.
Proof.
  induction l as [|x l IH]; simpl; [done|].
  destruct (index_of kv <=? index_of x)%N; [done|].
  rewrite IH. apply Permutation_swap.
Qed.

Lemma sort_by_index_perm l : sort_by_index l ≡ₚ l.
Proof.
  induction l as [|x l IH]; simpl; [done|].
  rewrite insert_sorted_perm. by rewrite IH.
Qed.

Lemma filter_split_perm (f : string * V → bool) l :
  List.filter f l ++ List.filter (fun x => negb (f x)) l ≡ₚ l.
Proof.
  induction l as [|x l IH]; simpl; [done|].
  destruct (f x); simpl.
  - by rewrite IH.
  - rewrite <- Permutation_middle. by rewrite IH.
Qed.

Lemma entries_perm o : entries o ≡ₚ o.
Proof.
  unfold entries. rewrite sort_by_index_perm. apply filter_split_perm.
Qed.

Lemma keys_length o : length (keys o) = length o.
Proof.
  unfold keys. rewrite length_fmap. apply Permutation_length, entries_perm.
Qed.

Lemma insert_sorted_sorted kv l :
  Sorted index_le l → Sorted index_le (insert_sorted kv l).
Proof.
  induction 1 as [|x l Hl IH Hx]; simpl.
  - repeat constructor.
  - destruct (index_of kv <=? index_of x)%N eqn:E.
    + apply N.leb_le in E. repeat constructor; done.
    + apply N.leb_gt in E. constructor; [done|].
      destruct l as [|y l']; simpl in *.
      * constructor. unfold index_le. lia.
      * destruct (index_of kv <=? index_of y)%N.
        -- constructor. unfold index_le. lia.
        -- constructor. by inversion Hx.
Qed.

Lemma sort_by_index_sorted l : Sorted index_le (sort_by_index l).
Proof.
  induction l; simpl; [constructor|]. by apply insert_sorted_sorted.
Qed.

Lemma filter_none (f : string * V → bool) l :
  Forall (fun x => f x = false) l → List.filter f l = [].
Proof.
  induction 1 as [|x l Hx _ IH]; simpl; [done|]. by rewrite Hx.
Qed.

Lemma filter_every (f : string * V → bool) l :
  Forall (fun x => f x = true) l → List.filter f l = l.
Proof.
  induction 1 as [|x l Hx _ IH]; simpl; [done|]. rewrite Hx. by f_equal.
Qed.

(** Without array-index keys, enumeration order is creation order. *)
Lemma entries_no_index o :
  Forall (fun kv => is_index kv = false) o → entries o = o.
Proof.
  intros H. unfold entries. rewrite filter_none by done. simpl.
  apply filter_every. eapply Forall_impl; [exact H|].
  intros kv Hkv. simpl. by rewrite Hkv.
Qed.

(** Writing a property never duplicates a key. *)
Lemma define_keys_in k v o k' :
  k' ∈ (fst <$> define k v o) ↔ k' = k ∨ k' ∈ (fst <$> o).
Proof.
  induction o as [|[k0 v0] o IH]; simpl.
  - rewrite list_elem_of_singleton. split; [auto|].
    intros [?|H]; [done|]. by apply elem_of_nil in H.
  - destruct (String.eqb k0 k) eqn:E; simpl.
    + apply String.eqb_eq in E. subst. rewrite !elem_of_cons. tauto.
    + rewrite !elem_of_cons, IH. tauto.
Qed.

Lemma define_NoDup k v o :
  NoDup (fst <$> o) → NoDup (fst <$> define k v o).
Proof.
  induction o as [|[k0 v0] o IH]; simpl; intros Hnd.
  - apply NoDup_singleton.
  - destruct (String.eqb k0 k) eqn:E; simpl; [done|].
    apply NoDup_cons in Hnd as [Hni Hnd]. apply NoDup_cons. split; [|auto].
    rewrite define_keys_in. intros [->|?]; [|done].
    by rewrite String.eqb_refl in E.
Qed.

(** Reading after writing. *)
Lemma get_define_same k v o : get k (define k v o) = Some v.
Proof.
  unfold get. induction o as [|[k0 v0] o IH]; simpl.
  - by rewrite String.eqb_refl.
  - destruct (String.eqb k0 k) eqn:E; simpl; rewrite E; [done|exact IH].
Qed.

Lemma get_define_other k v o other :
  other ≠ k → get other (define k v o) = get other o.
Proof.
  intros Hne. unfold get. induction o as [|[k0 v0] o IH]; simpl.
  - destruct (String.eqb k other) eqn:E; [|done].
    apply String.eqb_eq in E. by subst.
  - destruct (String.eqb k0 k) eqn:E; simpl.
    + apply String.eqb_eq in E. subst k0.
      destruct (String.eqb k other) eqn:E'; [|done].
      apply String.eqb_eq in E'. by subst.
    + destruct (String.eqb k0 other); [done|exact IH].
Qed.

(** A key that is there keeps its place; a new key comes last. *)
Lemma define_listed k v o :
  has k o = true → fst <$> define k v o = fst <$> o.
Proof.
  unfold has, get. induction o as [|[k0 v0] o IH]; simpl; [done|].
  destruct (String.eqb k0 k) eqn:E; simpl.
  - intros _. apply String.eqb_eq in E. by subst.
  - intros H. f_equal. by apply IH.
Qed.



(** Enumeration order depends on the keys alone. *)
Local Abbreviation same_keys := (Forall2 (fun a b : string * V => a.1 = b.1)).








End WithValue.
End JsObjectFacts.

(** ** ContentBuilder.build *)
Module ContentBuilderFacts.
Import Js ContentBuilder.

Lemma list_frontMatter items b : frontMatter (list_ items b) = frontMatter b.
Proof.
  unfold list_. revert b.
  induction items as [|i items IH]; intros b; simpl; [done|].
  by rewrite IH.
Qed.

Lemma list_detached items b : detached (list_ items b) = detached b.
Proof.
  unfold list_. revert b.
  induction items as [|i items IH]; intros b; simpl; [done|].
  by rewrite IH.
Qed.

Lemma assign_NoDup key value b :
  NoDup (keys_of b) → NoDup (keys_of (assign key value b)).
Proof.
  unfold keys_of, assign. intros H.
  destruct (negb (detached b) && _).
  - by destruct value.
  - by apply JsObjectFacts.define_NoDup.
Qed.

Lemma apply_NoDup b c : NoDup (keys_of b) → NoDup (keys_of (apply b c)).
Proof.
  destruct c; simpl; try done; try apply assign_NoDup.
  unfold keys_of. by rewrite list_frontMatter.
Qed.

Lemma chain_from_NoDup cs b :
  NoDup (keys_of b) → NoDup (keys_of (List.fold_left apply cs b)).
Proof.
  revert b. induction cs as [|c cs IH]; intros b Hb; simpl; [done|].
  by apply IH, apply_NoDup.
Qed.

(** The bound of the array indices: [4294967294] is one,
    [4294967295] is an ordinary key, and so is a numeral with a leading
    zero. *)
Example array_index_bound :
  JsObject.array_index "4294967294" = Some 4294967294%N
  ∧ JsObject.array_index "4294967295" = None
  ∧ JsObject.array_index "0" = Some 0%N
  ∧ JsObject.array_index "01" = None.
Proof. repeat split; reflexivity. Qed.

(** C5, as stated, fails: after [param("b", "x").param("1", "y")] the
    front matter lists [1: y] before [b: x], although [b] was inserted
    first. *)
Lemma build_insertion_order_fails :
  let b := chain [Param "b" (PStr "x"); Param "1" (PStr "y")] in
  build Demo.number_to_string b
  = "---" +:+ NL +:+ "1: y" +:+ NL +:+ "b: x" +:+ NL +:+ "---" +:+ NL +:+ NL
  ∧ build_insertion_order Demo.number_to_string b
    = "---" +:+ NL +:+ "b: x" +:+ NL +:+ "1: y" +:+ NL +:+ "---" +:+ NL +:+ NL
  ∧ build Demo.number_to_string b ≠ build_insertion_order Demo.number_to_string b.
Proof. vm_compute. repeat split; discriminate. Qed.

Section WithEngine.
Variable number_to_string : number → string.

Local Abbreviation build := (ContentBuilder.build number_to_string).
Local Abbreviation build_insertion_order :=
  (ContentBuilder.build_insertion_order number_to_string).
Local Abbreviation line := (ContentBuilder.line number_to_string).

(** The shape of [build()] on any builder state. *)
Lemma build_shape b :
  build b =
    (match frontMatter b with
     | [] => ""
     | _ => "---" +:+ NL
            +:+ join NL (line <$> JsObject.entries (frontMatter b))
            +:+ NL +:+ "---" +:+ NL +:+ NL
     end) +:+ join (NL +:+ NL) (body b).
Proof.
  unfold ContentBuilder.build. rewrite JsObjectFacts.keys_length.
  by destruct (frontMatter b).
Qed.

(** With no array-index key in the front matter, the lines come out in
    insertion order. *)
Lemma build_no_index_keys b :
  Forall (fun kv => JsObject.is_index kv = false) (frontMatter b) →
  build b = build_insertion_order b.
Proof.
  intros H. rewrite build_shape, JsObjectFacts.entries_no_index by done.
  unfold ContentBuilder.build_insertion_order. destruct (frontMatter b); [done|].
  by rewrite !JsFacts.append_assoc.
Qed.

(** C5, amended: for every chain of builder calls, [build()] returns the
    front-matter block followed by the body blocks joined by a blank
    line, and no front-matter block when the front matter is empty; the
    [key: value] lines follow the object's own-property order: the keys
    that are array indices (the canonical decimal numerals of the
    integers from 0 to 2^32 - 2) first, in ascending numeric order, then
    all other keys in insertion order.  Every key is listed once; when no
    key is an array index, the lines are in insertion order. *)
Theorem build_own_property_order (cs : list call) :
  let b := chain cs in
  ∃ indexed others : list (string * prim),
    build b =
      (match frontMatter b with
       | [] => ""
       | _ => "---" +:+ NL +:+ join NL (line <$> (indexed ++ others))
              +:+ NL +:+ "---" +:+ NL +:+ NL
       end) +:+ join (NL +:+ NL) (body b)
    ∧ others = List.filter (fun kv => negb (JsObject.is_index kv)) (frontMatter b)
    ∧ indexed ≡ₚ List.filter JsObject.is_index (frontMatter b)
    ∧ Sorted JsObject.index_le indexed
    ∧ NoDup (fst <$> frontMatter b)
    ∧ (Forall (fun kv => JsObject.is_index kv = false) (frontMatter b) →
       build b = build_insertion_order b).
Proof.
  intros b.
  exists (JsObject.sort_by_index (List.filter JsObject.is_index (frontMatter b))).
  exists (List.filter (fun kv => negb (JsObject.is_index kv)) (frontMatter b)).
  split; [apply build_shape|].
  split; [done|].
  split; [apply JsObjectFacts.sort_by_index_perm|].
  split; [apply JsObjectFacts.sort_by_index_sorted|].
  split; [|apply build_no_index_keys].
  apply (chain_from_NoDup cs new). apply NoDup_nil_2.
Qed.

End WithEngine.

End ContentBuilderFacts.

(** ** The sandbox *)
Module SandboxFacts.
Import Js Sandbox.

Section WithTool.
Variable uniweb : list string → string → gmap string entry
                  → process * gmap string entry.
Variable execa_wording : string → list string → process → string.
Variable yaml_parse : string → completion Yaml.value.
Variable engine : Yaml.engine.
Variable toEqual : Yaml.js → Yaml.js → bool.
Variable render : Yaml.js → string.
Variable removal_failure : string → world → string * gmap string entry.
Variable temporaryDirectory : string.

(** *** Which subprocesses a computation launches *)

Lemma silent_ret {A} (a : A) : silent (ret a).
Proof. done. Qed.

Lemma silent_throw {A} e : silent (throw (A := A) e).
Proof. done. Qed.

Lemma silent_bind {A B} (m : M A) (k : A → M B) :
  silent m → (∀ a, silent (k a)) → silent (bind m k).
Proof.
  intros Hm Hk w. unfold bind. specialize (Hm w).
  destruct (m w) as [[a|e] w1]; simpl in *; [|done].
  by rewrite Hk.
Qed.

Lemma launches_bind {A B} argv (m : M A) (k : A → M B) :
  launches argv m → (∀ a, silent (k a)) → launches argv (bind m k).
Proof.
  intros Hm Hk w. unfold bind. specialize (Hm w).
  destruct (m w) as [[a|e] w1]; simpl in *; [|done].
  by rewrite Hk.
Qed.

Lemma silent_chdir dir : silent (chdir dir).
Proof. intros w. unfold chdir. by destruct (files w !! _) as [[]|]. Qed.

Lemma silent_in_sandbox this p : silent (in_sandbox this p).
Proof. unfold in_sandbox. by destruct (tempDir this). Qed.

Lemma silent_fileExists this p : silent (fileExists this p).
Proof. apply silent_bind; [apply silent_in_sandbox|]. by intros full w. Qed.

Lemma silent_readFile this p : silent (readFile this p).
Proof.
  apply silent_bind; [apply silent_in_sandbox|]. intros full w.
  by destruct (files w !! full) as [[]|].
Qed.

Lemma silent_lift {A} (c : completion A) : silent (lift c).
Proof. done. Qed.

Lemma silent_readYaml this p : silent (readYaml yaml_parse this p).
Proof. apply silent_bind; [apply silent_readFile|]. intros c. apply silent_lift. Qed.

Lemma silent_expect_toBe a msg e : silent (expect_toBe a msg e).
Proof. unfold expect_toBe. by destruct (Bool.eqb a e). Qed.

Lemma silent_expect_toContain a msg i : silent (expect_toContain a msg i).
Proof. unfold expect_toContain. by destruct (includes i a). Qed.

Lemma silent_expect_value_toContain a msg i :
  silent (expect_value_toContain engine a msg i).
Proof.
  unfold expect_value_toContain. by destruct (contains engine a i) as [[]|].
Qed.

Lemma silent_expectFileExists this p msg : silent (expectFileExists this p msg).
Proof.
  apply silent_bind; [apply silent_fileExists|].
  intros b. apply silent_expect_toBe.
Qed.

Lemma silent_expectFileContains this p c msg :
  silent (expectFileContains this p c msg).
Proof.
  apply silent_bind; [apply silent_expectFileExists|]. intros _.
  apply silent_bind; [apply silent_readFile|]. intros fc.
  apply silent_expect_toContain.
Qed.

Lemma silent_expectYamlContains this p prop v msg :
  silent (expectYamlContains yaml_parse engine this p prop v msg).
Proof.
  apply silent_bind; [apply silent_expectFileExists|]. intros _.
  apply silent_bind; [apply silent_readYaml|]. intros y.
  apply silent_bind; [apply silent_lift|]. intros actual.
  apply silent_expect_value_toContain.
Qed.

Lemma launches_runUniweb this args : launches args (runUniweb uniweb execa_wording this args).
Proof.
  intros w. unfold runUniweb, try_catch, bind, execa, ret.
  destruct (uniweb args _ (files w)) as [p files'].
  by destruct (execa_settle execa_wording "uniweb" args p).
Qed.

Lemma launches_expectCommandSuccess this args :
  launches args (expectCommandSuccess uniweb execa_wording this args).
Proof.
  apply launches_bind; [apply launches_runUniweb|]. intros r.
  apply silent_bind; [apply silent_expect_toBe|]. by intros _.
Qed.

Lemma launches_initProject this name o :
  launches (initProject_args name o) (initProject uniweb execa_wording this name o).
Proof.
  apply launches_bind; [apply launches_expectCommandSuccess|]. intros _.
  apply silent_bind; [|by intros _].
  destruct (negb _); [apply silent_chdir|done].
Qed.

Lemma launches_addPage this name o :
  launches (addPage_args name o) (addPage uniweb execa_wording this name o).
Proof.
  apply launches_bind; [apply launches_expectCommandSuccess|]. intros _.
  apply silent_bind; [apply silent_expectFileExists|]. by intros _.
Qed.

Lemma launches_addSection this name o :
  launches (addSection_args name o) (addSection uniweb execa_wording yaml_parse engine this name o).
Proof.
  apply launches_bind; [apply launches_expectCommandSuccess|]. intros _.
  apply silent_bind; [apply silent_expectFileExists|]. intros _.
  apply silent_bind; [apply silent_expectYamlContains|]. by intros _.
Qed.

Lemma launches_setSection this name content o :
  launches (setSection_args name content o)
           (setSection uniweb execa_wording this name content o).
Proof.
  apply launches_bind; [apply launches_expectCommandSuccess|]. intros _.
  apply silent_bind; [apply silent_expectFileContains|]. by intros _.
Qed.

(** *** Argument vectors *)

Lemma push_flag name (o : option string) (args : list string) :
  (if truthy o then args ++ [name; the o] else args)
  = args ++ Described.flag name o.
Proof.
  unfold Described.flag, Described.given.
  destruct o as [v|]; simpl; [|by rewrite app_nil_r].
  destruct (negb _); [done|by rewrite app_nil_r].
Qed.

(** C2: each operation's argument vector is a function of its name and
    options alone, built in a fixed order: [init <name>], then
    [--single-site], [--module <m>], [--site <s>]; [add section <name>],
    then [--page], [--site], [--position]; [set section <name>], then
    [--page], [--site], [--locale], always ending with [--body <content>].
    An option is given when the helper's test on it succeeds (it is
    defined and not the empty string).  Each operation launches the tool
    exactly once, with that vector. *)
Theorem argv_from_options (this : t) (name content : string) (o : options) :
  initProject_args name o = Described.init_argv name o
  ∧ addSection_args name o = Described.add_section_argv name o
  ∧ setSection_args name content o = Described.set_section_argv name content o
  ∧ (∃ front, setSection_args name content o = front ++ ["--body"; content])
  ∧ launches (Described.init_argv name o) (initProject uniweb execa_wording this name o)
  ∧ launches (Described.add_section_argv name o)
             (addSection uniweb execa_wording yaml_parse engine this name o)
  ∧ launches (Described.set_section_argv name content o)
             (setSection uniweb execa_wording this name content o).
Proof.
  assert (Hi : initProject_args name o = Described.init_argv name o).
  { unfold initProject_args, Described.init_argv.
    rewrite !push_flag. destruct (singleSite o); simpl; [done|].
    by rewrite <- ?app_assoc. }
  assert (Ha : addSection_args name o = Described.add_section_argv name o).
  { unfold addSection_args, Described.add_section_argv.
    rewrite !push_flag. by rewrite <- ?app_assoc. }
  assert (Hs : setSection_args name content o
               = Described.set_section_argv name content o).
  { unfold setSection_args, Described.set_section_argv.
    rewrite !push_flag. by rewrite <- ?app_assoc. }
  repeat split; try done.
  - eexists. unfold setSection_args. reflexivity.
  - rewrite <- Hi. apply launches_initProject.
  - rewrite <- Ha. apply launches_addSection.
  - rewrite <- Hs. apply launches_setSection.
Qed.

(** *** Running the tool *)

Lemma runUniweb_completes (this : t) (args : list string) (w : world) :
  ∃ r, (runUniweb uniweb execa_wording this args w).1 = Normal r.
Proof.
  unfold runUniweb, try_catch, bind, ret.
  destruct (execa _ _ _ _ _) as [[res|err] w']; by eexists.
Qed.

(** C1: [runUniweb(args)] never raises.  It resolves to a result record
    whose [success] is true exactly when the subprocess exited with
    code 0; otherwise (non-zero exit, death by signal, failure to
    launch) [success] is false, [error] holds the message of the error
    [execa] rejected with, [stderr] the captured standard error or the
    empty string, and [exitCode] the exit code, or 1 when there is
    none. *)
Theorem runUniweb_uniform_result (this : t) (args : list string) (w : world) :
  let p := (uniweb args (default (cwd w) (tempDir this)) (files w)).1 in
  ∃ r : run_result,
    (runUniweb uniweb execa_wording this args w).1 = Normal r
    ∧ success r = Described.exited_zero p
    ∧ stdout r = Described.captured_stdout p
    ∧ stderr r = Described.captured_stderr p
    ∧ exitCode r = Described.exit_code_or_1 p
    ∧ match execa_settle execa_wording "uniweb" args p with
      | Normal _ => success r = true ∧ error r = None
      | Throw rejection =>
          success r = false ∧ error r = Some (message rejection)
      end.
Proof.
  intros p. subst p. unfold runUniweb, try_catch, bind, ret, execa.
  destruct (uniweb args _ (files w)) as [p files']. simpl.
  destruct p as [code out err|out err|]; simpl.
  - destruct (code =? 0)%Z eqn:E; simpl.
    + apply Z.eqb_eq in E. subst code.
      eexists. repeat split; reflexivity.
    + eexists. split; [reflexivity|]. simpl. rewrite E.
      repeat split; try reflexivity.
      * by destruct out.
      * by destruct err.
  - eexists. split; [reflexivity|]. simpl.
    repeat split; try reflexivity.
    + by destruct out.
    + by destruct err.
  - eexists. repeat split; reflexivity.
Qed.

(** *** The check after [setSection] *)

(** [expectFileContains], evaluated. *)
Lemma expectFileContains_eval this filePath needle w :
  expectFileContains this filePath needle None w =
    match tempDir this with
    | None =>
        (Throw (TypeError "The path argument must be of type string. Received null"), w)
    | Some d =>
        match files w !! path_join d filePath with
        | None =>
            (Throw (AssertionError ("Expected file " +:+ filePath +:+ " to exist")), w)
        | Some Dir =>
            (Throw (SystemError ("EISDIR: illegal operation on a directory, read "
                                 +:+ path_join d filePath)), w)
        | Some (File c) =>
            if includes needle c then (Normal tt, w)
            else (Throw (AssertionError ("Expected " +:+ filePath +:+ " to contain "
                                         +:+ DQ +:+ needle +:+ DQ)), w)
        end
    end.
Proof.
  unfold expectFileContains, expectFileExists, fileExists, readFile,
    in_sandbox, expect_toBe, expect_toContain, bind, ret, throw.
  destruct (tempDir this) as [d|]; [|done]. simpl.
  destruct (files w !! path_join d filePath) as [[c|]|] eqn:E;
    simpl; rewrite ?E; simpl; try done.
  by destruct (includes needle c).
Qed.

Lemma expectFileContains_returns this filePath needle w :
  returns (expectFileContains this filePath needle None w).1 = true
  ↔ ∃ d c, tempDir this = Some d
           ∧ files w !! path_join d filePath = Some (File c)
           ∧ includes needle c = true.
Proof.
  rewrite expectFileContains_eval. split.
  - destruct (tempDir this) as [d|]; [|done].
    destruct (files w !! path_join d filePath) as [[c|]|] eqn:E; try done.
    destruct (includes needle c) eqn:I; [|done]. intros _. by exists d, c.
  - intros (d & c & -> & -> & ->). done.
Qed.

Lemma section_path_eq name o :
  setSection_filePath name o = Described.section_path name o.
Proof.
  unfold setSection_filePath, Described.section_path, Described.segment,
    Described.given.
  destruct (locale o) as [l|], (site o) as [s|], (page o) as [p|]; simpl;
    repeat match goal with
           | |- context [String.eqb ?x ""] => destruct (String.eqb x "")
           end; simpl;
    by rewrite ?JsFacts.append_assoc.
Qed.

Lemma expectCommandSuccess_eval this args w :
  expectCommandSuccess uniweb execa_wording this args w =
    let '(p, files') := uniweb args (default (cwd w) (tempDir this)) (files w) in
    let w' := launched args (set_files files' w) in
    match (runUniweb uniweb execa_wording this args w).1 with
    | Normal r =>
        if Described.exited_zero p then (Normal r, w')
        else (Throw (AssertionError
                ("Expected 'uniweb " +:+ join " " args +:+ "' to succeed. Error: "
                 +:+ or_else (error r) (stderr r))), w')
    | Throw e => (Throw e, w')
    end.
Proof.
  unfold expectCommandSuccess, runUniweb, try_catch, execa, bind, expect_toBe,
    ret, throw.
  destruct (uniweb args _ (files w)) as [p files'].
  destruct p as [code out err|out err|]; simpl; try done.
  by destruct (code =? 0)%Z.
Qed.

(** C3: the path [setSection] verifies is [pages] or, with a site,
    [sites/<site>/pages], extended with [/<page>] when a page is given and
    with [/<name>.md], the whole prefixed with [locales/<locale>/] when a
    locale is given; after the command, [setSection] requires the file
    at that path (in the sandbox directory) to contain the first line of
    [content], the first element of [content.split("\n")].  So
    [setSection] succeeds exactly when the tool exited with code 0 and
    that file then contains that line. *)
Theorem setSection_checks_first_line_at_path
    (this : t) (name content : string) (o : options) (w : world) :
  setSection_filePath name o = Described.section_path name o
  ∧ (∃ rest, split nl content = first_line content :: rest)
  ∧ setSection uniweb execa_wording this name content o
    = bind (expectCommandSuccess uniweb execa_wording this (setSection_args name content o))
        (fun _ =>
           bind (expectFileContains this (Described.section_path name o)
                   (first_line content) None)
             (fun _ => ret this))
  ∧ (let '(p, files') :=
       uniweb (setSection_args name content o)
              (default (cwd w) (tempDir this)) (files w) in
     returns (setSection uniweb execa_wording this name content o w).1 = true
     ↔ Described.exited_zero p = true
       ∧ ∃ d c, tempDir this = Some d
                ∧ files' !! path_join d (Described.section_path name o)
                  = Some (File c)
                ∧ includes (first_line content) c = true).
Proof.
  split; [apply section_path_eq|]. split.
  { unfold first_line. destruct (JsFacts.split_cons nl content) as (h & t & ->).
    by exists t. }
  split.
  { unfold setSection, setSection_verify. by rewrite section_path_eq. }
  unfold setSection, setSection_verify. rewrite section_path_eq.
  unfold bind at 1. rewrite expectCommandSuccess_eval.
  destruct (uniweb _ _ (files w)) as [p files'].
  destruct (runUniweb_completes this (setSection_args name content o) w)
    as (r & ->).
  destruct (Described.exited_zero p); simpl.
  - unfold bind at 1.
    pose proof (expectFileContains_returns this (Described.section_path name o)
                  (first_line content)
                  (launched (setSection_args name content o) (set_files files' w)))
      as H.
    destruct (expectFileContains _ _ _ _ _) as [[[]|e] w2]; simpl in *.
    + rewrite H. tauto.
    + rewrite H. tauto.
  - split; [done|]. by intros [? _].
Qed.

(** The first line is empty exactly for the empty content and for a
    content that begins with a line break. *)
Lemma first_line_empty content :
  first_line content = "" ↔ content = "" ∨ ∃ rest, content = String nl rest.
Proof.
  unfold first_line. destruct content as [|c rest]; simpl.
  - split; [by left|done].
  - destruct (Ascii.eqb c nl) eqn:E.
    + apply Ascii.eqb_eq in E. subst c. split; [|done].
      intros _. right. by exists rest.
    + destruct (JsFacts.split_cons nl rest) as (h & t & ->).
      split; [done|]. intros [?|[rest' H]]; [done|].
      injection H as -> _. by rewrite Ascii.eqb_refl in E.
Qed.

(** C10: when the first line of the content is empty (the content is
    empty or begins with a line break), the check after [setSection]
    only asks the target file to contain the empty string: it passes
    for every existing file, whatever the file holds. *)
Theorem setSection_check_vacuous_on_empty_first_line
    (this : t) (name content : string) (o : options) (w : world)
    (d fileContent : string) :
  content = "" ∨ (∃ rest, content = String nl rest) →
  tempDir this = Some d →
  files w !! path_join d (setSection_filePath name o) = Some (File fileContent) →
  first_line content = ""
  ∧ setSection_verify this name content o w
    = expectFileContains this (setSection_filePath name o) "" None w
  ∧ setSection_verify this name content o w = (Normal tt, w).
Proof.
  intros Hc Hd Hf. apply first_line_empty in Hc.
  unfold setSection_verify. rewrite Hc. repeat split.
  rewrite expectFileContains_eval, Hd, Hf.
  by rewrite JsFacts.includes_empty.
Qed.

(** *** Nested properties *)

(** The plain access would throw where the optional one does not. *)
Lemma member_throws key :
  returns (Yaml.member engine Yaml.undefined key) = false
  ∧ returns (Yaml.member engine (Some Yaml.YNull) key) = false.
Proof. done. Qed.

(** Once [undefined] or [null], always [undefined]. *)
Lemma descend_undefined keys :
  Described.descend Yaml.undefined keys = Yaml.undefined.
Proof. induction keys as [|k keys IH]; simpl; [done|exact IH]. Qed.

Lemma descend_app obj before after :
  Described.descend obj (before ++ after)
  = Described.descend (Described.descend obj before) after.
Proof. apply List.fold_left_app. Qed.

Lemma own_path_undefined keys : Described.own_path engine Yaml.undefined keys.
Proof. by destruct keys. Qed.

(** With own properties only on the way, the optional access goes down
    the document one key at a time and never throws. *)
Lemma reduce_optional_get keys obj :
  Described.own_path engine obj keys →
  reduce (Yaml.optional_get engine) keys obj = Normal (Described.descend obj keys).
Proof.
  revert obj. induction keys as [|k keys IH]; intros obj H; [done|].
  cbn [reduce Described.descend List.fold_left].
  destruct obj as [v|]; [|apply IH, own_path_undefined].
  assert (Hnull : v = Yaml.YNull ∨ v ≠ Yaml.YNull).
  { destruct v; auto; by right. }
  destruct Hnull as [->|Hv]; [apply IH, own_path_undefined|].
  assert (Yaml.optional_get engine (Some v) k = Yaml.get_property engine v k
          ∧ Described.step (Some v) k = Yaml.own_property v k
          ∧ (match Yaml.own_property v k with
             | Some found => Described.own_path engine (Some found) keys
             | None => Yaml.inherited engine v k = Normal Yaml.undefined
             end)) as (-> & -> & Hk).
  { destruct v; try done. }
  unfold Yaml.get_property.
  destruct (Yaml.own_property v k) as [found|].
  - by apply IH.
  - rewrite Hk. apply IH, own_path_undefined.
Qed.

Lemma expectYamlProperty_eval this filePath property expected message w
      d content doc :
  tempDir this = Some d →
  files w !! path_join d filePath = Some (File content) →
  yaml_parse content = Normal doc →
  expectYamlProperty yaml_parse engine toEqual render this filePath property
    expected message w
  = bind (lift (getNestedProperty engine (Some doc) property))
      (fun actualValue =>
         expect_toEqual toEqual actualValue
           (or_else message ("Expected " +:+ filePath +:+ "." +:+ property
                             +:+ " to equal " +:+ render expected))
           expected) w.
Proof.
  intros Hd Hf Hy.
  unfold expectYamlProperty, expectFileExists, fileExists, readYaml, readFile,
    in_sandbox, expect_toBe, bind, ret, throw, lift.
  rewrite Hd. simpl. rewrite Hf. simpl. rewrite Hf. simpl. by rewrite Hy.
Qed.

(** C7, amended: for every value and every dotted path on which each key
    is looked up among own properties (the entries of a mapping, the
    elements and [length] of an array or a string) or is missing
    altogether, [getNestedProperty] completes normally (it never throws)
    with the value reached by descending from the value through the keys
    of [path.split(".")]; as soon as the value reached is [undefined] (a
    missing key) or [null] and a key remains, the result is [undefined];
    and [expectYamlProperty] hands exactly this value, [undefined]
    included, to the comparison with the expectation. *)
Theorem getNestedProperty_descends_to_undefined (obj : Yaml.js) (path : string) :
  Described.own_path engine obj (split "." path) →
  getNestedProperty engine obj path = Normal (Described.descend obj (split "." path))
  ∧ (∃ key keys, split "." path = key :: keys)
  ∧ (∀ before key after,
       split "." path = before ++ key :: after →
       let reached := Described.descend obj before in
       reached = Yaml.undefined ∨ reached = Some Yaml.YNull →
       getNestedProperty engine obj path = Normal Yaml.undefined)
  ∧ (∀ this filePath expected message w d content doc,
       obj = Some doc →
       tempDir this = Some d →
       files w !! path_join d filePath = Some (File content) →
       yaml_parse content = Normal doc →
       (expectYamlProperty yaml_parse engine toEqual render this filePath path
          expected message w).1
       = if toEqual (Described.descend obj (split "." path)) expected
         then Normal tt
         else Throw (AssertionError
                (or_else message ("Expected " +:+ filePath +:+ "." +:+ path
                                  +:+ " to equal " +:+ render expected)))).
Proof.
  intros Hown.
  assert (Hget : getNestedProperty engine obj path
                 = Normal (Described.descend obj (split "." path)))
    by apply reduce_optional_get, Hown.
  split; [exact Hget|]. split; [apply JsFacts.split_cons|]. split.
  - intros before key after E reached H. rewrite Hget, E, descend_app.
    fold reached. f_equal.
    destruct H as [-> | ->]; simpl; apply descend_undefined.
  - intros this filePath expected message w d content doc -> Hd Hf Hy.
    rewrite (expectYamlProperty_eval _ _ _ _ _ _ d content doc) by done.
    unfold bind, lift. rewrite Hget. unfold expect_toEqual.
    by destruct (toEqual _ expected).
Qed.

(** *** Teardown *)

Lemma path_join_truthy a b : truthy (Some (path_join a b)) = true.
Proof. unfold path_join. by destruct a. Qed.

Lemma resolve_absolute base p : String.prefix "/" p = true → resolve base p = p.
Proof. unfold resolve. by intros ->. Qed.

(** What [fs.remove] leaves: nothing at or below the path, everything
    else as it was. *)
Lemma removed_lookup path (m : gmap string entry) p :
  filter (fun kv => under path kv.1 = false) m !! p
  = if under path p then None else m !! p.
Proof.
  rewrite map_lookup_filter. destruct (m !! p) as [x|] eqn:E; simpl.
  - destruct (under path p) eqn:U.
    + by rewrite option_guard_False.
    + by rewrite option_guard_True.
  - by destruct (under path p).
Qed.

(** After a successful [setup()], the object holds the new directory. *)
Lemma setup_assigns suffix this0 w0 d this w1 :
  setup temporaryDirectory suffix this0 w0 = (Normal d, this, w1) →
  this = {| tempDir := Some d; originalCwd := originalCwd this0 |}
  ∧ d = path_join temporaryDirectory ("uniweb-test-" +:+ suffix).
Proof.
  unfold setup, mkdtemp. intros H.
  destruct (files w0 !! temporaryDirectory) as [[|]|]; try done.
  destruct (files w0 !! path_join _ _) as [|]; try done.
  destruct (chdir _ _) as [[[]|e] w2]; try done.
  by injection H as <- <- <-.
Qed.

(** [cleanup()] completes normally, whatever the object and the world. *)
Lemma cleanup_completes this w : (cleanup removal_failure this w).1 = Normal tt.
Proof.
  unfold cleanup. destruct (truthy (tempDir this)); [|done].
  unfold try_catch. by destruct (bind _ _ w) as [[[]|e] w'].
Qed.

(** [cleanup()], evaluated on an object that holds a sandbox directory
    and an absolute saved directory. *)
Lemma cleanup_eval d o w :
  String.prefix "/" o = true →
  cleanup removal_failure {| tempDir := Some d; originalCwd := o |} w =
    if truthy (Some d) then
      match files w !! o with
      | Some Dir =>
          if blocked d w
          then (Normal tt,
                warn ("Warning: Could not clean up temp directory " +:+ d +:+ ": "
                      +:+ (removal_failure d (set_cwd o w)).1)
                     (set_files (removal_failure d (set_cwd o w)).2 (set_cwd o w)))
          else (Normal tt,
                set_files (filter (fun kv => under d kv.1 = false) (files w))
                          (set_cwd o w))
      | _ =>
          (Normal tt,
           warn ("Warning: Could not clean up temp directory " +:+ d +:+ ": "
                 +:+ "ENOENT: no such file or directory, chdir " +:+ o) w)
      end
    else (Normal tt, w).
Proof.
  intros Habs. unfold cleanup. cbn [tempDir originalCwd the default].
  destruct (truthy (Some d)); [|done].
  unfold try_catch, bind, chdir. rewrite resolve_absolute by done.
  destruct (files w !! o) as [[|]|]; try done.
  unfold remove, id.
  replace (blocked d (set_cwd o w)) with (blocked d w) by done.
  by destruct (blocked d w).
Qed.

(** C6: after [setup()] has assigned the sandbox directory, [cleanup()]
    never throws.  When the directory saved at construction still
    exists, the working directory is restored to it; when moreover
    nothing in the sandbox directory resists deletion, the directory is
    removed with everything below it and nothing else is touched, and
    no warning is printed.  When going back or deleting fails, the
    error becomes one [console.warn] line and the call still completes
    normally. *)
Theorem cleanup_restores_and_removes
    (suffix : string) (this0 this : t) (w0 w1 w : world) (d : string) :
  setup temporaryDirectory suffix this0 w0 = (Normal d, this, w1) →
  String.prefix "/" (originalCwd this0) = true →
  (cleanup removal_failure this w).1 = Normal tt
  ∧ let w' := (cleanup removal_failure this w).2 in
    match files w !! originalCwd this0 with
    | Some Dir =>
        cwd w' = originalCwd this0
        ∧ if blocked d w
          then ∃ msg, warnings w' = warnings w ++ [msg]
          else (∀ p, files w' !! p = if under d p then None else files w !! p)
               ∧ warnings w' = warnings w
    | _ =>
        cwd w' = cwd w ∧ files w' = files w
        ∧ ∃ msg, warnings w' = warnings w ++ [msg]
    end.
Proof.
  intros Hs Habs. split; [apply cleanup_completes|].
  apply setup_assigns in Hs as [-> Hd].
  assert (Ht : truthy (Some d) = true) by (rewrite Hd; apply path_join_truthy).
  rewrite cleanup_eval, Ht by done.
  destruct (files w !! originalCwd this0) as [[|]|]; simpl.
  - repeat split; eauto.
  - destruct (blocked d w); simpl.
    + repeat split; eauto.
    + repeat split. intros p. apply removed_lookup.
  - repeat split; eauto.
Qed.

End WithTool.
End SandboxFacts.

(** ** BatchOperations *)
Module BatchFacts.
Import Js Sandbox Described.

Section WithTool.
Variable uniweb : list string → string → gmap string entry
                  → process * gmap string entry.
Variable execa_wording : string → list string → process → string.
Variable yaml_parse : string → completion Yaml.value.
Variable engine : Yaml.engine.

Local Abbreviation call := (Described.call uniweb execa_wording yaml_parse engine).
Local Abbreviation in_order := (Described.in_order uniweb execa_wording yaml_parse engine).
Local Abbreviation execute := (BatchOperations.execute uniweb execa_wording yaml_parse engine).

Lemma declare_appends b d :
  BatchOperations.operations (declare b d)
  = BatchOperations.operations b ++ [record_of d]
  ∧ BatchOperations.env (declare b d) = BatchOperations.env b.
Proof. by destruct d. Qed.

Lemma declare_all_from ds b :
  BatchOperations.operations (List.fold_left declare ds b)
  = BatchOperations.operations b ++ (record_of <$> ds)
  ∧ BatchOperations.env (List.fold_left declare ds b) = BatchOperations.env b.
Proof.
  revert b. induction ds as [|d ds IH]; intros b; simpl.
  - by rewrite app_nil_r.
  - destruct (IH (declare b d)) as [-> ->].
    destruct (declare_appends b d) as [-> ->].
    by rewrite <- app_assoc.
Qed.

Lemma declared_operations env ds :
  BatchOperations.operations (declared env ds) = record_of <$> ds
  ∧ BatchOperations.env (declared env ds) = env.
Proof. apply (declare_all_from ds (BatchOperations.new env)). Qed.

(** The [switch] sends a record to the method its type names. *)
Lemma dispatch_record env d w :
  BatchOperations.dispatch uniweb execa_wording yaml_parse engine env (record_of d) w
  = match call env d w with
    | (Normal _, w') => (Normal tt, w')
    | (Throw e, w') => (Throw e, w')
    end.
Proof.
  destruct d; unfold BatchOperations.dispatch, bind, ret; simpl;
    match goal with
    | |- context [Sandbox.addPage ?t ?x ?e ?n ?o w] =>
        by destruct (Sandbox.addPage t x e n o w) as [[?|?] ?]
    | |- context [Sandbox.addSection ?t ?x ?y ?g ?e ?n ?o w] =>
        by destruct (Sandbox.addSection t x y g e n o w) as [[?|?] ?]
    | |- context [Sandbox.setSection ?t ?x ?e ?n ?c ?o w] =>
        by destruct (Sandbox.setSection t x e n c o w) as [[?|?] ?]
    end.
Qed.

Lemma each_records env ds w :
  BatchOperations.each uniweb execa_wording yaml_parse engine env (record_of <$> ds) w
  = in_order env ds w.
Proof.
  revert w. induction ds as [|d ds IH]; intros w; simpl; [done|].
  unfold bind. rewrite dispatch_record.
  by destruct (call env d w) as [[?|?] w'].
Qed.

Lemma launches_call env d : launches (argv_of d) (call env d).
Proof.
  destruct d; simpl.
  - apply SandboxFacts.launches_addPage.
  - apply SandboxFacts.launches_addSection.
  - apply SandboxFacts.launches_setSection.
Qed.

(** The tool is launched for the declarations in order, up to and
    including the first whose call fails. *)
Lemma in_order_invocations env ds w :
  ∃ k : nat, (k ≤ length ds)%nat
       ∧ invocations (in_order env ds w).2
         = invocations w ++ (argv_of <$> take k ds)
       ∧ if returns (in_order env ds w).1 then k = length ds else (0 < k)%nat.
Proof.
  revert w. induction ds as [|d ds IH]; intros w; simpl.
  - exists 0. by rewrite app_nil_r.
  - pose proof (launches_call env d w) as Hd.
    destruct (call env d w) as [[e'|e] w1]; simpl in *.
    + destruct (IH w1) as (k & Hk & Hinv & Hres).
      exists (S k). split; [lia|]. split.
      * rewrite Hinv, Hd. simpl. by rewrite <- app_assoc.
      * destruct (returns _); lia.
    + exists 1. split; [lia|]. split; [|lia]. rewrite Hd. simpl. by rewrite ?take_0.
Qed.

Lemma execute_eval b w :
  execute b w
  = match BatchOperations.each uniweb execa_wording yaml_parse engine (BatchOperations.env b)
            (BatchOperations.operations b) w with
    | (Normal _, w') => (Normal (BatchOperations.env b), b, w')
    | (Throw e, w') => (Throw e, b, w')
    end.
Proof. reflexivity. Qed.

(** C4: each declaration appends exactly one typed record to the queue
    and returns the batch (the same environment, the queue one longer);
    [execute()] then calls, for the records in insertion order, the
    sandbox's [addPage], [addSection] or [setSection], each awaited;
    the first failing call ends the run with its error, and the tool
    has then been launched for the operations up to that one only; when
    every call succeeds, [execute()] resolves to the sandbox. *)
Theorem batch_declares_then_replays
    (env : Sandbox.t) (ds : list declaration) (d : declaration) (w : world) :
  let b := declared env ds in
  BatchOperations.operations b = record_of <$> ds
  ∧ BatchOperations.env b = env
  ∧ BatchOperations.operations (declare b d)
    = BatchOperations.operations b ++ [record_of d]
  ∧ BatchOperations.env (declare b d) = BatchOperations.env b
  ∧ execute b w
    = match in_order env ds w with
      | (Normal _, w') => (Normal env, b, w')
      | (Throw e, w') => (Throw e, b, w')
      end
  ∧ ∃ k : nat, (k ≤ length ds)%nat
         ∧ invocations (execute b w).2 = invocations w ++ (argv_of <$> take k ds)
         ∧ if returns (execute b w).1.1
           then k = length ds ∧ (execute b w).1.1 = Normal env
           else (0 < k)%nat.
Proof.
  intros b. destruct (declared_operations env ds) as [Hops Henv].
  assert (Hex : execute b w
                = match in_order env ds w with
                  | (Normal _, w') => (Normal env, b, w')
                  | (Throw e, w') => (Throw e, b, w')
                  end).
  { rewrite execute_eval. subst b. by rewrite Hops, Henv, each_records. }
  split; [done|]. split; [done|].
  split; [apply declare_appends|]. split; [apply declare_appends|].
  split; [done|].
  rewrite Hex.
  destruct (in_order_invocations env ds w) as (k & Hk & Hinv & Hres).
  exists k. split; [done|].
  destruct (in_order env ds w) as [[[]|e] w']; simpl in *; auto.
Qed.

(** C9: [execute()] leaves the queue as it was: after it has run, the
    batch still holds every declared record in the original order, and
    a second [execute()] is the same replay from the world the first one
    left; when both runs succeed, the tool has been launched for all
    operations, in order, twice. *)
Theorem execute_keeps_queue (env : Sandbox.t) (ds : list declaration) (w : world) :
  let b := declared env ds in
  let '(c1, b1, w1) := execute b w in
  let '(c2, b2, w2) := execute b1 w1 in
  BatchOperations.operations b1 = record_of <$> ds
  ∧ BatchOperations.operations b2 = record_of <$> ds
  ∧ (c2, b2, w2) = execute b w1
  ∧ (returns c1 = true → invocations w1 = invocations w ++ (argv_of <$> ds))
  ∧ (returns c1 = true → returns c2 = true →
     invocations w2 = invocations w ++ (argv_of <$> ds) ++ (argv_of <$> ds)).
Proof.
  intros b. destruct (declared_operations env ds) as [Hops Henv].
  assert (Hex : ∀ w, execute b w
                     = match in_order env ds w with
                       | (Normal _, w') => (Normal env, b, w')
                       | (Throw e, w') => (Throw e, b, w')
                       end).
  { intros w0. rewrite execute_eval. subst b.
    by rewrite Hops, Henv, each_records. }
  assert (Hlog : ∀ w0, returns (in_order env ds w0).1 = true →
                       invocations (in_order env ds w0).2
                       = invocations w0 ++ (argv_of <$> ds)).
  { intros w0 Hr.
    destruct (in_order_invocations env ds w0) as (k & Hk & Hinv & Hres).
    rewrite Hr in Hres. subst k. by rewrite firstn_all in Hinv. }
  rewrite (Hex w). pose proof (Hlog w) as H1.
  destruct (in_order env ds w) as [[[]|e1] w1]; simpl in H1.
  - rewrite (Hex w1). pose proof (Hlog w1) as H2.
    destruct (in_order env ds w1) as [[[]|e2] w2]; simpl in H2.
    + repeat split; try done.
      intros _ _. rewrite H2, H1 by done. by rewrite <- app_assoc.
    + repeat split; done.
  - rewrite (Hex w1).
    destruct (in_order env ds w1) as [[[]|e2] w2]; repeat split; done.
Qed.

End WithTool.
End BatchFacts.

(** ** PerformanceHelper.timeOperation *)
Module PerformanceFacts.
Import Js PerformanceHelper.

(** C8, as stated, fails: when the operation fails, no duration is
    recorded.  Here the clock is the world itself; the operation takes
    5 ms and then rejects, leaving the helper as it was; the rejection
    comes through and the metrics hold no entry for the name. *)
Lemma timeOperation_failure_not_recorded :
  let now := fun w : Z => w in
  let failing := fun (helper : t) (w : Z) =>
    (Throw (SystemError "boom") : completion unit, helper, (w + 5)%Z) in
  let this := new {| Sandbox.tempDir := None; Sandbox.originalCwd := "/" |} in
  let '(c, this', w') := timeOperation now "page-creation" failing this 100%Z in
  c = Throw (SystemError "boom")
  ∧ w' = 105%Z
  ∧ JsObject.get "page-creation" (metrics this') = None.
Proof. vm_compute. repeat split. Qed.

Lemma set_other {V} (name other : string) (d : V) (o : JsObject.t V) :
  other ≠ name → JsObject.get other (JsObject.set name d o) = JsObject.get other o.
Proof.
  intros Hne. unfold JsObject.set.
  destruct (JsObject.reaches_proto_setter name o); [done|].
  by apply JsObjectFacts.get_define_other.
Qed.

Lemma set_ordinary {V} (name : string) (d : V) (o : JsObject.t V) :
  name ≠ "__proto__" → JsObject.set name d o = JsObject.define name d o.
Proof.
  intros Hne. unfold JsObject.set, JsObject.reaches_proto_setter.
  destruct (String.eqb name "__proto__") eqn:E; [|done].
  by apply String.eqb_eq in E.
Qed.

(** C8, amended: when the operation succeeds, [timeOperation(name, op)]
    takes the wall-clock time around its completion, stores the duration
    in the metrics under [name], on top of whatever the operation itself
    did to the helper, replacing any earlier measurement of that name and
    leaving the others, and resolves to [{ result, duration }] with the
    stored duration.  The one name under which nothing is stored is
    [__proto__]: assigning a number to that key of a plain object creates
    no property.  When the operation fails, its error comes through and
    [timeOperation] records nothing. *)
Theorem timeOperation_records_on_success {W R : Type}
    (now : W → Z) (name : string) (operation : t → W → completion R * t * W)
    (this : t) (w : W) :
  match operation this w with
  | (Normal r, this1, w1) =>
      let d := (now w1 - now w)%Z in
      let this' := {| env := env this1;
                      metrics := JsObject.set name d (metrics this1) |} in
      timeOperation now name operation this w
      = (Normal {| result := r; duration := d |}, this', w1)
      ∧ (name ≠ "__proto__" → JsObject.get name (metrics this') = Some d)
      ∧ (∀ other, other ≠ name →
           JsObject.get other (metrics this') = JsObject.get other (metrics this1))
      ∧ (name = "__proto__" → JsObject.has "__proto__" (metrics this1) = false →
         metrics this' = metrics this1)
  | (Throw e, this1, w1) =>
      timeOperation now name operation this w = (Throw e, this1, w1)
  end.
Proof.
  unfold timeOperation.
  destruct (operation this w) as [[[r|e] this1] w1]; simpl; [|done].
  split; [done|]. split; [|split].
  - intros Hne. rewrite set_ordinary by done. apply JsObjectFacts.get_define_same.
  - intros other Hne. by apply set_other.
  - intros -> Hown. unfold JsObject.set, JsObject.reaches_proto_setter.
    by rewrite Hown.
Qed.

End PerformanceFacts.

(** ** Concrete runs *)
Module Runs.
Import Js Sandbox Demo.

Example setup_run :
  setup tmp "k3x9" fresh start
  = (Normal sandbox, env,
     set_cwd sandbox (set_files (<[sandbox := Dir]> (files start)) start)).
Proof. vm_compute. reflexivity. Qed.

Example cleanup_run :
  (cleanup removal_failure env used).1 = Normal tt
  ∧ cwd (cleanup removal_failure env used).2 = home
  ∧ files (cleanup removal_failure env used).2 = {[ tmp := Dir; home := Dir ]}
  ∧ warnings (cleanup removal_failure env used).2 = [].
Proof. vm_compute. repeat split. Qed.

(** With a file that cannot be removed, teardown still completes; the
    stand-in removal leaves that file and the directories above it. *)
Example cleanup_stuck_run :
  (cleanup removal_failure env stuck).1 = Normal tt
  ∧ cwd (cleanup removal_failure env stuck).2 = home
  ∧ files (cleanup removal_failure env stuck).2
      !! "/tmp/uniweb-test-k3x9/pages/about/hero.md" = Some (File "# Old heading")
  ∧ files (cleanup removal_failure env stuck).2
      !! "/tmp/uniweb-test-k3x9/pages/about/page.yml" = None
  ∧ length (warnings (cleanup removal_failure env stuck).2) = 1.
Proof. vm_compute. repeat split. Qed.

Example nested_length :
  getNestedProperty engine (Some manifest) "sections.length"
  = Normal (Some (Yaml.YNum 2)).
Proof. reflexivity. Qed.

Example nested_index :
  getNestedProperty engine (Some manifest) "sections.1"
  = Normal (Some (Yaml.YStr "skills")).
Proof. reflexivity. Qed.

Example nested_missing :
  getNestedProperty engine (Some manifest) "meta.author.name" = Normal Yaml.undefined.
Proof. reflexivity. Qed.

Example nested_through_null :
  getNestedProperty engine (Some manifest) "title.text" = Normal Yaml.undefined
  ∧ getNestedProperty engine (Some manifest) "title" = Normal (Some Yaml.YNull)
  ∧ returns (reduce (Yaml.member engine) (split "." "title.text") (Some manifest)) = false.
Proof. repeat split; reflexivity. Qed.

(** The length of a string counts UTF-16 code units: a two-byte
    character is one unit, a four-byte character two. *)
Example string_length_run :
  let e_acute := String (ascii_of_nat 195) (String (ascii_of_nat 169) "") in
  let emoji := String (ascii_of_nat 240) (String (ascii_of_nat 159)
                 (String (ascii_of_nat 152) (String (ascii_of_nat 128) ""))) in
  getNestedProperty engine
    (Some (Yaml.YMap [("title", Yaml.YStr ("caf" +:+ e_acute))])) "title.length"
  = Normal (Some (Yaml.YNum 4))
  ∧ getNestedProperty engine
      (Some (Yaml.YMap [("title", Yaml.YStr ("caf" +:+ e_acute))])) "title.3"
    = Normal (Some (Yaml.YStr e_acute))
  ∧ getNestedProperty engine
      (Some (Yaml.YMap [("title", Yaml.YStr emoji)])) "title.length"
    = Normal (Some (Yaml.YNum 2)).
Proof. repeat split; reflexivity. Qed.

(** C7, as stated, fails: the document has no key [constructor], and
    descending through its keys gives [undefined]; yet the code finds
    the function [Object] on the prototype and returns its name. *)
Lemma getNestedProperty_finds_inherited :
  let doc := Yaml.YMap [("title", Yaml.YStr "Home")] in
  JsObject.get "constructor" [("title", Yaml.YStr "Home")] = None
  ∧ Described.descend (Some doc) (split "." "constructor.name") = Yaml.undefined
  ∧ getNestedProperty engine (Some doc) "constructor.name"
    = Normal (Some (Yaml.YStr "Object")).
Proof. repeat split; reflexivity. Qed.

(** A path through a key that the manifest of [Demo.manifest] does not
    have. *)
Lemma getNestedProperty_witness :
  Described.own_path engine (Some manifest) (split "." "meta.author.name")
  ∧ getNestedProperty engine (Some manifest) "meta.author.name"
    = Normal Yaml.undefined.
Proof.
  assert (H : Described.own_path engine (Some manifest)
                (split "." "meta.author.name")) by reflexivity.
  split; [exact H|].
  exact (proj1 (SandboxFacts.getNestedProperty_descends_to_undefined
                  parse engine (fun _ _ => true) (fun _ => "")
                  (Some manifest) "meta.author.name" H)).
Defined.

Example section_path_run :
  setSection_filePath "hero"
    {| singleSite := false; module := None; site := Some "main";
       page := Some "about"; position := None; locale := Some "fr" |}
  = "locales/fr/sites/main/pages/about/hero.md"
  ∧ setSection_filePath "hero" no_options = "pages/hero.md".
Proof. split; reflexivity. Qed.

Example set_section_argv_run :
  setSection_args "hero" "# Hi"
    {| singleSite := false; module := None; site := Some "main";
       page := Some "about"; position := None; locale := Some "fr" |}
  = ["set"; "section"; "hero"; "--page"; "about"; "--site"; "main";
     "--locale"; "fr"; "--body"; "# Hi"].
Proof. reflexivity. Qed.

(** Two pages declared and replayed twice against the stand-in tool:
    the tool is launched for both pages, in order, each time. *)
Example batch_twice_run :
  let b := Described.declared env
             [Described.AddPage "about" no_options;
              Described.AddPage "work" no_options] in
  let '(c1, b1, w1) := BatchOperations.execute tool wording parse engine b used in
  let '(c2, b2, w2) := BatchOperations.execute tool wording parse engine b1 w1 in
  c1 = Normal env ∧ c2 = Normal env
  ∧ invocations w2 = [["add"; "page"; "about"]; ["add"; "page"; "work"];
                      ["add"; "page"; "about"]; ["add"; "page"; "work"]].
Proof. vm_compute. repeat split. Qed.

(** A failing operation stops the batch: the third is never launched. *)
Example batch_failure_run :
  let b := Described.declared env
             [Described.AddPage "about" no_options;
              Described.AddSection "hero" on_about;
              Described.AddPage "work" no_options] in
  let '(c, _, w') := BatchOperations.execute tool wording parse engine b used in
  returns c = false
  ∧ invocations w' = [["add"; "page"; "about"];
                      ["add"; "section"; "hero"; "--page"; "about"]].
Proof. vm_compute. repeat split. Qed.

(** The check after [setSection] on a content that starts with a line
    break, against a file that holds something else. *)
Lemma setSection_check_vacuous_witness :
  (NL +:+ "# New heading" = ""
   ∨ ∃ rest, NL +:+ "# New heading" = String nl rest)
  ∧ tempDir env = Some sandbox
  ∧ files used !! path_join sandbox (setSection_filePath "hero" on_about)
    = Some (File "# Old heading")
  ∧ first_line (NL +:+ "# New heading") = ""
  ∧ setSection_verify env "hero" (NL +:+ "# New heading") on_about used
    = expectFileContains env (setSection_filePath "hero" on_about) "" None used
  ∧ setSection_verify env "hero" (NL +:+ "# New heading") on_about used
    = (Normal tt, used).
Proof.
  assert (H1 : NL +:+ "# New heading" = ""
               ∨ ∃ rest, NL +:+ "# New heading" = String nl rest).
  { right. exists "# New heading". reflexivity. }
  assert (H2 : tempDir env = Some sandbox) by reflexivity.
  assert (H3 : files used !! path_join sandbox (setSection_filePath "hero" on_about)
               = Some (File "# Old heading")).
  { vm_compute. reflexivity. }
  split; [exact H1|]. split; [exact H2|]. split; [exact H3|].
  exact (SandboxFacts.setSection_check_vacuous_on_empty_first_line
           env "hero" (NL +:+ "# New heading") on_about used sandbox
           "# Old heading" H1 H2 H3).
Defined.

(** Teardown after a test that ran in the sandbox made by [setup()]. *)
Lemma cleanup_witness :
  setup tmp "k3x9" fresh start
  = (Normal sandbox, env,
     set_cwd sandbox (set_files (<[sandbox := Dir]> (files start)) start))
  ∧ String.prefix "/" (originalCwd fresh) = true
  ∧ (cleanup removal_failure env used).1 = Normal tt
  ∧ let w' := (cleanup removal_failure env used).2 in
    match files used !! originalCwd fresh with
    | Some Dir =>
        cwd w' = originalCwd fresh
        ∧ if blocked sandbox used
          then ∃ msg, warnings w' = warnings used ++ [msg]
          else (∀ p, files w' !! p
                     = if under sandbox p then None else files used !! p)
               ∧ warnings w' = warnings used
    | _ =>
        cwd w' = cwd used ∧ files w' = files used
        ∧ ∃ msg, warnings w' = warnings used ++ [msg]
    end.
Proof.
  assert (H1 : setup tmp "k3x9" fresh start
               = (Normal sandbox, env,
                  set_cwd sandbox
                    (set_files (<[sandbox := Dir]> (files start)) start))).
  { vm_compute. reflexivity. }
  assert (H2 : String.prefix "/" (originalCwd fresh) = true) by reflexivity.
  split; [exact H1|]. split; [exact H2|].
  exact (SandboxFacts.cleanup_restores_and_removes removal_failure tmp "k3x9" fresh env start
           _ used sandbox H1 H2).
Defined.

End Runs.


(** ** More of the sandbox: assertion, workflow and navigation helpers *)
Module SandboxMore.
Import Js Sandbox.

Section WithTool.
Variable uniweb : list string → string → gmap string entry
                  → process * gmap string entry.
Variable execa_wording : string → list string → process → string.
Variable yaml_parse : string → completion Yaml.value.
Variable engine : Yaml.engine.
Variable toEqual : Yaml.js → Yaml.js → bool.
Variable render : Yaml.js → string.
Variable removal_failure : string → world → string * gmap string entry.
Variable temporaryDirectory : string.

(** *** Helpers that only look *)

Lemma read_only_ret {A} (a : A) : read_only (ret a).
Proof. done. Qed.

Lemma read_only_throw {A} e : read_only (throw (A := A) e).
Proof. done. Qed.

Lemma read_only_lift {A} (c : completion A) : read_only (lift c).
Proof. done. Qed.

Lemma read_only_bind {A B} (m : M A) (k : A → M B) :
  read_only m → (∀ a, read_only (k a)) → read_only (bind m k).
Proof.
  intros Hm Hk w. unfold bind. specialize (Hm w).
  destruct (m w) as [[a|e] w1]; simpl in *; subst; [apply Hk|done].
Qed.

Lemma read_only_for_each {A} (body : A → M unit) xs :
  (∀ x, read_only (body x)) → read_only (for_each body xs).
Proof.
  intros Hb. induction xs as [|x xs IH]; simpl; [done|].
  apply read_only_bind; [apply Hb|]. by intros _.
Qed.

Lemma read_only_in_sandbox this p : read_only (in_sandbox this p).
Proof. unfold in_sandbox. by destruct (tempDir this). Qed.

Lemma read_only_fileExists this p : read_only (fileExists this p).
Proof. apply read_only_bind; [apply read_only_in_sandbox|]. by intros full w. Qed.

Lemma read_only_readFile this p : read_only (readFile this p).
Proof.
  apply read_only_bind; [apply read_only_in_sandbox|]. intros full w.
  by destruct (files w !! full) as [[]|].
Qed.

Lemma read_only_readYaml this p : read_only (readYaml yaml_parse this p).
Proof.
  apply read_only_bind; [apply read_only_readFile|]. intros c.
  apply read_only_lift.
Qed.

Lemma read_only_expect_toBe a msg e : read_only (expect_toBe a msg e).
Proof. unfold expect_toBe. by destruct (Bool.eqb a e). Qed.

Lemma read_only_expect_value_toContain a msg i :
  read_only (expect_value_toContain engine a msg i).
Proof.
  unfold expect_value_toContain. by destruct (contains engine a i) as [[]|].
Qed.

Lemma read_only_expectFileExists this p msg :
  read_only (expectFileExists this p msg).
Proof.
  apply read_only_bind; [apply read_only_fileExists|].
  intros b. apply read_only_expect_toBe.
Qed.

Lemma read_only_expectFileNotExists this p msg :
  read_only (expectFileNotExists this p msg).
Proof.
  apply read_only_bind; [apply read_only_fileExists|].
  intros b. apply read_only_expect_toBe.
Qed.

Lemma read_only_expectFileContains this p c msg :
  read_only (expectFileContains this p c msg).
Proof.
  apply read_only_bind; [apply read_only_expectFileExists|]. intros _.
  apply read_only_bind; [apply read_only_readFile|]. intros fc.
  unfold expect_toContain. by destruct (includes c fc).
Qed.

Lemma read_only_expectYamlProperty this p prop v msg :
  read_only (expectYamlProperty yaml_parse engine toEqual render this p prop v msg).
Proof.
  apply read_only_bind; [apply read_only_expectFileExists|]. intros _.
  apply read_only_bind; [apply read_only_readYaml|]. intros y.
  apply read_only_bind; [apply read_only_lift|]. intros actual.
  unfold expect_toEqual. by destruct (toEqual actual v).
Qed.

Lemma read_only_expectYamlContains this p prop v msg :
  read_only (expectYamlContains yaml_parse engine this p prop v msg).
Proof.
  apply read_only_bind; [apply read_only_expectFileExists|]. intros _.
  apply read_only_bind; [apply read_only_readYaml|]. intros y.
  apply read_only_bind; [apply read_only_lift|]. intros actual.
  apply read_only_expect_value_toContain.
Qed.

Lemma read_only_expectFilesExist this ps : read_only (expectFilesExist this ps).
Proof. apply read_only_for_each. intros p. apply read_only_expectFileExists. Qed.

(** X1: the readers and the assertion helpers only look: whether they
    pass or fail, they leave the working directory, the files, the
    warnings and the list of launched commands exactly as they found
    them. *)
Theorem assertion_helpers_read_only
    (this : t) (filePath property : string) (content : string)
    (expected : Yaml.js) (message : option string) (filePaths : list string)
    (type : string) :
  read_only (fileExists this filePath)
  ∧ read_only (readFile this filePath)
  ∧ read_only (readYaml yaml_parse this filePath)
  ∧ read_only (expectFileExists this filePath message)
  ∧ read_only (expectFileNotExists this filePath message)
  ∧ read_only (expectFilesExist this filePaths)
  ∧ read_only (expectFileContains this filePath content message)
  ∧ read_only (expectYamlProperty yaml_parse engine toEqual render this filePath
                 property expected message)
  ∧ read_only (expectYamlContains yaml_parse engine this filePath property content message)
  ∧ read_only (expectStandardProjectStructure this type)
  ∧ read_only (expectStandardSiteStructure this filePath)
  ∧ read_only (expectStandardPageStructure this filePath)
  ∧ read_only (expectProjectType this type).
Proof.
  repeat split.
  - apply read_only_fileExists.
  - apply read_only_readFile.
  - apply read_only_readYaml.
  - apply read_only_expectFileExists.
  - apply read_only_expectFileNotExists.
  - apply read_only_expectFilesExist.
  - apply read_only_expectFileContains.
  - apply read_only_expectYamlProperty.
  - apply read_only_expectYamlContains.
  - unfold expectStandardProjectStructure.
    apply read_only_bind; [apply read_only_expectFilesExist|]. intros _.
    destruct (String.eqb type "single-site").
    + apply read_only_bind; [apply read_only_expectFilesExist|]. intros _.
      apply read_only_expectFileNotExists.
    + destruct (String.eqb type "workspace");
        [apply read_only_expectFileExists|done].
  - apply read_only_expectFilesExist.
  - apply read_only_expectFilesExist.
  - unfold expectProjectType.
    repeat (destruct (String.eqb type _); [apply read_only_expectFilesExist|]).
    done.
Qed.

(** *** Existence checks *)

Lemma expectFileExists_eval this p msg w :
  expectFileExists this p msg w =
    match tempDir this with
    | None =>
        (Throw (TypeError "The path argument must be of type string. Received null"), w)
    | Some d =>
        match files w !! path_join d p with
        | Some _ => (Normal tt, w)
        | None =>
            (Throw (AssertionError
                      (or_else msg ("Expected file " +:+ p +:+ " to exist"))), w)
        end
    end.
Proof.
  unfold expectFileExists, fileExists, in_sandbox, expect_toBe, bind, ret, throw.
  destruct (tempDir this) as [d|]; [|done]. simpl.
  by destruct (files w !! path_join d p).
Qed.

Lemma expectFileNotExists_eval this p msg w :
  expectFileNotExists this p msg w =
    match tempDir this with
    | None =>
        (Throw (TypeError "The path argument must be of type string. Received null"), w)
    | Some d =>
        match files w !! path_join d p with
        | None => (Normal tt, w)
        | Some _ =>
            (Throw (AssertionError
                      (or_else msg ("Expected file " +:+ p +:+ " to not exist"))), w)
        end
    end.
Proof.
  unfold expectFileNotExists, fileExists, in_sandbox, expect_toBe, bind, ret, throw.
  destruct (tempDir this) as [d|]; [|done]. simpl.
  by destruct (files w !! path_join d p).
Qed.

Lemma expectFileExists_returns this p msg w :
  returns (expectFileExists this p msg w).1 = true ↔ Described.present this w p.
Proof.
  rewrite expectFileExists_eval. unfold Described.present. split.
  - destruct (tempDir this) as [d|]; [|done].
    destruct (files w !! path_join d p) eqn:E; [|done].
    intros _. exists d. by rewrite E.
  - intros (d & -> & [x ->]). done.
Qed.

Lemma expectFileNotExists_returns this p msg w :
  returns (expectFileNotExists this p msg w).1 = true ↔ Described.absent this w p.
Proof.
  rewrite expectFileNotExists_eval. unfold Described.absent. split.
  - destruct (tempDir this) as [d|]; [|done].
    destruct (files w !! path_join d p) eqn:E; [done|].
    intros _. by exists d.
  - intros (d & -> & ->). done.
Qed.

Lemma present_absent this w p : Described.present this w p → Described.absent this w p → False.
Proof.
  intros (d & Hd & [x Hx]) (d' & Hd' & Hn). rewrite Hd in Hd'.
  injection Hd' as <-. by rewrite Hx in Hn.
Qed.

(** X2: [expectFileExists] passes exactly when the path exists below the
    sandbox directory (a directory counts), [expectFileNotExists] exactly
    when it does not; they never both pass, and once [setup()] has set the
    directory exactly one of them passes.  Before that, both fail. *)
Theorem exists_and_not_exists_complement
    (this : t) (filePath : string) (m1 m2 : option string) (w : world) :
  (returns (expectFileExists this filePath m1 w).1 = true
   ↔ Described.present this w filePath)
  ∧ (returns (expectFileNotExists this filePath m2 w).1 = true
     ↔ Described.absent this w filePath)
  ∧ returns (expectFileNotExists this filePath m2 w).1
    = match tempDir this with
      | Some _ => negb (returns (expectFileExists this filePath m1 w).1)
      | None => false
      end
  ∧ (tempDir this = None →
     returns (expectFileExists this filePath m1 w).1 = false).
Proof.
  split; [apply expectFileExists_returns|].
  split; [apply expectFileNotExists_returns|].
  rewrite expectFileExists_eval, expectFileNotExists_eval.
  destruct (tempDir this) as [d|]; [|done].
  split; [|done]. by destruct (files w !! path_join d filePath).
Qed.

(** A loop of checks that only look passes exactly when every check
    passes, and otherwise ends with the error of the first that fails. *)
Lemma for_each_checks {A} (body : A → M unit) xs w :
  (∀ x, read_only (body x)) →
  (returns (for_each body xs w).1 = true
   ↔ Forall (fun x => returns (body x w).1 = true) xs)
  ∧ (∀ pre x post e,
       xs = pre ++ x :: post →
       Forall (fun y => returns (body y w).1 = true) pre →
       (body x w).1 = Throw e →
       for_each body xs w = (Throw e, w)).
Proof.
  intros Hro. induction xs as [|x xs [IH1 IH2]]; simpl.
  - split; [by split|]. intros [|] ? ? ? ?; done.
  - unfold bind. pose proof (Hro x w) as Hx.
    destruct (body x w) as [[[]|e] w1] eqn:E; simpl in Hx; subst w1.
    + split.
      * rewrite IH1. split.
        -- intros H. constructor; [by rewrite E|done].
        -- by inversion 1.
      * intros [|y pre] z post e' Heq Hpre Hz; simpl in Heq.
        -- injection Heq as <- <-. by rewrite E in Hz.
        -- injection Heq as <- ->. inversion Hpre; subst.
           by apply (IH2 pre z post e').
    + split.
      * split; [done|]. inversion 1 as [|? ? Hb]. by rewrite E in Hb.
      * intros [|y pre] z post e' Heq Hpre Hz; simpl in Heq.
        -- injection Heq as <- <-. rewrite E in Hz. simpl in Hz. by injection Hz as ->.
        -- injection Heq as <- ->. inversion Hpre as [|? ? Hb]; subst.
           by rewrite E in Hb.
Qed.

(** X3: [expectFilesExist] passes exactly when every listed path exists
    (so it passes on an empty list); otherwise it fails with the message
    that names the first missing path, and later paths are not looked
    at. *)
Theorem expectFilesExist_first_missing
    (this : t) (filePaths : list string) (w : world) :
  (returns (expectFilesExist this filePaths w).1 = true
   ↔ Forall (Described.present this w) filePaths)
  ∧ (∀ pre missing post,
       filePaths = pre ++ missing :: post →
       Forall (Described.present this w) pre →
       Described.absent this w missing →
       expectFilesExist this filePaths w
       = (Throw (AssertionError ("Expected file " +:+ missing +:+ " to exist")), w)).
Proof.
  unfold expectFilesExist.
  destruct (for_each_checks (fun p => expectFileExists this p None) filePaths w)
    as [H1 H2].
  { intros p. apply read_only_expectFileExists. }
  split.
  - rewrite H1. apply Forall_iff. intros p. apply expectFileExists_returns.
  - intros pre missing post Heq Hpre (d & Hd & Hn).
    apply (H2 pre missing post); [done| |].
    + eapply Forall_impl; [exact Hpre|]. intros p Hp.
      by apply expectFileExists_returns.
    + rewrite expectFileExists_eval, Hd, Hn. done.
Qed.

(** *** Structure checks *)

(** Two checks in a row, the first of which only looks. *)
Lemma returns_seq {A} (m : M unit) (k : M A) w :
  read_only m →
  returns (bind m (fun _ => k) w).1 = returns (m w).1 && returns (k w).1.
Proof.
  intros Hm. unfold bind. specialize (Hm w).
  destruct (m w) as [[[]|e] w1]; simpl in *; by subst.
Qed.

Lemma expectFilesExist_returns this ps w :
  returns (expectFilesExist this ps w).1 = true
  ↔ Forall (Described.present this w) ps.
Proof.
  unfold expectFilesExist.
  destruct (for_each_checks (fun p => expectFileExists this p None) ps w)
    as [H1 _].
  { intros p. apply read_only_expectFileExists. }
  rewrite H1. apply Forall_iff. intros p. apply expectFileExists_returns.
Qed.

(** X4: [expectStandardProjectStructure] always asks for [package.json]
    and [uniweb.config.js]; for ["single-site"] also for [site.yml] and
    [pages] and for [sites] to be missing; for ["workspace"] also for
    [sites]; for any other type nothing more.  So no project passes both
    as single-site and as workspace. *)
Theorem project_structure_kinds_exclusive (this : t) (w : world) :
  let passes type := returns (expectStandardProjectStructure this type w).1 = true in
  (passes "single-site"
   ↔ Forall (Described.present this w)
       ["package.json"; "uniweb.config.js"; "site.yml"; "pages"]
     ∧ Described.absent this w "sites")
  ∧ (passes "workspace"
     ↔ Forall (Described.present this w)
         ["package.json"; "uniweb.config.js"; "sites"])
  ∧ (∀ type, type ≠ "single-site" → type ≠ "workspace" →
       (passes type
        ↔ Forall (Described.present this w) ["package.json"; "uniweb.config.js"]))
  ∧ ¬ (passes "single-site" ∧ passes "workspace").
Proof.
  intros passes.
  assert (Hs : passes "single-site"
               ↔ Forall (Described.present this w)
                   ["package.json"; "uniweb.config.js"; "site.yml"; "pages"]
                 ∧ Described.absent this w "sites").
  { unfold passes, expectStandardProjectStructure. simpl String.eqb.
    rewrite returns_seq by apply read_only_expectFilesExist.
    rewrite returns_seq by apply read_only_expectFilesExist.
    rewrite !andb_true_iff, !expectFilesExist_returns,
      expectFileNotExists_returns, !Forall_cons. tauto. }
  assert (Hw : passes "workspace"
               ↔ Forall (Described.present this w)
                   ["package.json"; "uniweb.config.js"; "sites"]).
  { unfold passes, expectStandardProjectStructure. simpl String.eqb.
    rewrite returns_seq by apply read_only_expectFilesExist.
    rewrite !andb_true_iff, !expectFilesExist_returns,
      expectFileExists_returns, !Forall_cons. tauto. }
  split; [exact Hs|]. split; [exact Hw|]. split.
  - intros type H1 H2. unfold passes, expectStandardProjectStructure.
    apply String.eqb_neq in H1, H2. rewrite H1, H2.
    rewrite returns_seq by apply read_only_expectFilesExist.
    rewrite andb_true_iff, expectFilesExist_returns. simpl. tauto.
  - rewrite Hs, Hw, !Forall_cons. intros [[_ Ha] (_ & _ & Hp & _)].
    exact (present_absent _ _ _ Hp Ha).
Qed.

(** X5: [expectProjectType] knows three types, each asking for three
    page directories; for any other type it checks nothing and passes,
    whatever the sandbox holds. *)
Theorem expectProjectType_unknown_passes (this : t) (w : world) :
  let passes type := returns (expectProjectType this type w).1 = true in
  (passes "blog"
   ↔ Forall (Described.present this w) ["pages/blog"; "pages/about"; "pages/contact"])
  ∧ (passes "portfolio"
     ↔ Forall (Described.present this w) ["pages/work"; "pages/about"; "pages/contact"])
  ∧ (passes "ecommerce"
     ↔ Forall (Described.present this w)
         ["pages/products"; "pages/cart"; "pages/checkout"])
  ∧ (∀ type, type ≠ "blog" → type ≠ "portfolio" → type ≠ "ecommerce" →
       expectProjectType this type w = (Normal tt, w)).
Proof.
  intros passes. unfold passes, expectProjectType.
  split; [|split; [|split]].
  - replace ("blog" =? "blog")%string with true by reflexivity.
    apply expectFilesExist_returns.
  - replace ("portfolio" =? "blog")%string with false by reflexivity.
    replace ("portfolio" =? "portfolio")%string with true by reflexivity.
    apply expectFilesExist_returns.
  - replace ("ecommerce" =? "blog")%string with false by reflexivity.
    replace ("ecommerce" =? "portfolio")%string with false by reflexivity.
    replace ("ecommerce" =? "ecommerce")%string with true by reflexivity.
    apply expectFilesExist_returns.
  - intros type H1 H2 H3. apply String.eqb_neq in H1, H2, H3.
    by rewrite H1, H2, H3.
Qed.

(** *** Workflow helpers: one command, then checks that only look *)

Lemma expectCommandSuccess_world this args w :
  (expectCommandSuccess uniweb execa_wording this args w).2
  = launched args
      (set_files (uniweb args (default (cwd w) (tempDir this)) (files w)).2 w)
  ∧ returns (expectCommandSuccess uniweb execa_wording this args w).1
    = Described.exited_zero
        (uniweb args (default (cwd w) (tempDir this)) (files w)).1.
Proof.
  rewrite SandboxFacts.expectCommandSuccess_eval.
  destruct (uniweb args _ (files w)) as [p files']. simpl.
  destruct (SandboxFacts.runUniweb_completes uniweb execa_wording this args w) as (r & ->).
  by destruct (Described.exited_zero p).
Qed.

(** The shape shared by [addPage], [addSection], [addLocale] and
    [setSection]: the command, then a check, then [return this]. *)
Lemma workflow_eval this args (check : M unit) w :
  read_only check →
  let run := bind (expectCommandSuccess uniweb execa_wording this args)
               (fun _ => bind check (fun _ => ret this)) in
  let p := (uniweb args (default (cwd w) (tempDir this)) (files w)).1 in
  let w' := launched args
              (set_files (uniweb args (default (cwd w) (tempDir this)) (files w)).2 w) in
  (run w).2 = w'
  ∧ (returns (run w).1 = true
     ↔ Described.exited_zero p = true ∧ returns (check w').1 = true)
  ∧ (returns (run w).1 = true → (run w).1 = Normal this).
Proof.
  intros Hro run p w'. subst run. unfold bind, ret.
  destruct (expectCommandSuccess_world this args w) as [Hw Hr].
  fold w' in Hw. fold p in Hr.
  destruct (expectCommandSuccess uniweb execa_wording this args w) as [[r|e] w1];
    simpl in Hw, Hr; subst w1; rewrite <- Hr; simpl.
  - pose proof (Hro w') as Hc.
    destruct (check w') as [[[]|e] w2]; simpl in *; subst; by intuition.
  - by intuition.
Qed.

Lemma expect_value_toContain_returns actual msg item w :
  returns (expect_value_toContain engine actual msg item w).1 = true
  ↔ contains engine actual item = Normal true.
Proof.
  unfold expect_value_toContain.
  destruct (contains engine actual item) as [[]|]; simpl; split; done.
Qed.

Lemma expectYamlContains_returns this filePath property item w :
  returns (expectYamlContains yaml_parse engine this filePath property item None w).1 = true
  ↔ ∃ d content doc actual,
      tempDir this = Some d
      ∧ files w !! path_join d filePath = Some (File content)
      ∧ yaml_parse content = Normal doc
      ∧ getNestedProperty engine (Some doc) property = Normal actual
      ∧ contains engine actual item = Normal true.
Proof.
  unfold expectYamlContains, expectFileExists, fileExists, readYaml, readFile,
    in_sandbox, expect_toBe, lift, bind, ret, throw.
  destruct (tempDir this) as [d|]; simpl.
  2: { split; [done|]. by intros (? & ? & ? & ? & ? & _). }
  destruct (files w !! path_join d filePath) as [[content|]|] eqn:E;
    simpl; rewrite ?E; simpl.
  2,3: split; [done|]; intros (? & ? & ? & ? & [= <-] & ? & _); congruence.
  destruct (yaml_parse content) as [doc|err] eqn:Y; simpl.
  2: { split; [done|]. intros (? & ? & ? & ? & [= <-] & F & P & _). congruence. }
  destruct (getNestedProperty engine (Some doc) property) as [actual|err] eqn:G;
    simpl.
  2: { split; [done|]. intros (? & ? & ? & ? & [= <-] & F & P & G' & _).
       congruence. }
  rewrite expect_value_toContain_returns. split.
  - intros H. by exists d, content, doc, actual.
  - intros (? & ? & ? & ? & [= <-] & F & P & G' & H). congruence.
Qed.

(** An array holds the name when one of its elements is that string. *)
Lemma contains_array items item :
  contains engine (Some (Yaml.YSeq items)) item = Normal true
  ↔ Yaml.YStr item ∈ items.
Proof.
  simpl. split.
  - intros [= H]. induction items as [|x items IH]; [done|].
    simpl in H. apply orb_true_iff in H as [H|H].
    + destruct x; try done. simpl in H. apply String.eqb_eq in H. subst.
      apply elem_of_cons. by left.
    + apply elem_of_cons. right. by apply IH.
  - intros H. f_equal. induction items as [|x items IH].
    + by apply elem_of_nil in H.
    + apply elem_of_cons in H as [<-|H]; simpl.
      * by rewrite String.eqb_refl.
      * apply orb_true_iff. right. by apply IH.
Qed.

Ltac option_paths :=
  unfold Described.segment, Described.given; simpl;
  repeat match goal with
         | |- context [String.eqb ?x ""] => destruct (String.eqb x "")
         end; simpl;
  rewrite ?JsFacts.append_assoc; try done.

Lemma addPage_path name (o : options) :
  (if truthy (site o)
   then "sites/" +:+ the (site o) +:+ "/pages/" +:+ name
   else "pages/" +:+ name) +:+ "/page.yml"
  = Described.segment "sites/" (site o) "/" +:+ "pages/" +:+ name +:+ "/page.yml".
Proof. destruct (site o) as [x|]; option_paths. Qed.

(** X6: [addPage] launches [add page <name>] (with [--site <s>] when a
    site is given) once, and succeeds exactly when the tool exited with
    code 0 and [pages/<name>/page.yml] (below [sites/<site>/] when a site
    is given) then exists in the sandbox directory; it then returns the
    environment.  Whatever the outcome, the helper itself changes nothing
    beyond what the tool did. *)
Theorem addPage_requires_manifest (this : t) (name : string) (o : options) (w : world) :
  let ran := uniweb (addPage_args name o) (default (cwd w) (tempDir this)) (files w) in
  let w' := launched (addPage_args name o) (set_files ran.2 w) in
  (addPage uniweb execa_wording this name o w).2 = w'
  ∧ (returns (addPage uniweb execa_wording this name o w).1 = true
     ↔ Described.exited_zero ran.1 = true
       ∧ Described.present this w'
           (Described.segment "sites/" (site o) "/" +:+ "pages/" +:+ name
            +:+ "/page.yml"))
  ∧ (returns (addPage uniweb execa_wording this name o w).1 = true →
     (addPage uniweb execa_wording this name o w).1 = Normal this).
Proof.
  intros ran w'. rewrite <- addPage_path.
  pose proof (workflow_eval this (addPage_args name o)
                (expectFileExists this
                   ((if truthy (site o)
                     then "sites/" +:+ the (site o) +:+ "/pages/" +:+ name
                     else "pages/" +:+ name) +:+ "/page.yml") None) w
                (read_only_expectFileExists _ _ _)) as (H1 & H2 & H3).
  split; [exact H1|]. split; [|exact H3].
  rewrite <- expectFileExists_returns. exact H2.
Qed.

Lemma section_file_path (o : options) (leaf : string) :
  (if truthy (page o)
   then (if truthy (site o)
         then "sites/" +:+ the (site o) +:+ "/pages" else "pages")
        +:+ "/" +:+ the (page o)
   else (if truthy (site o)
         then "sites/" +:+ the (site o) +:+ "/pages" else "pages"))
  +:+ "/" +:+ leaf
  = (Described.segment "sites/" (site o) "/" +:+ "pages"
     +:+ Described.segment "/" (page o) "") +:+ "/" +:+ leaf.
Proof. destruct (site o) as [x|], (page o) as [y|]; option_paths. Qed.

Lemma addSection_as_workflow this name o w :
  addSection uniweb execa_wording yaml_parse engine this name o w
  = bind (expectCommandSuccess uniweb execa_wording this (addSection_args name o))
      (fun _ =>
         bind (bind (expectFileExists this
                       ((Described.segment "sites/" (site o) "/" +:+ "pages"
                         +:+ Described.segment "/" (page o) "")
                        +:+ "/" +:+ name +:+ ".md") None)
                 (fun _ =>
                    expectYamlContains yaml_parse engine this
                      ((Described.segment "sites/" (site o) "/" +:+ "pages"
                        +:+ Described.segment "/" (page o) "")
                       +:+ "/" +:+ "page.yml") "sections" name None))
           (fun _ => ret this)) w.
Proof.
  unfold addSection.
  change (?x +:+ "/page.yml") with (x +:+ "/" +:+ "page.yml").
  rewrite !section_file_path. unfold bind.
  destruct (expectCommandSuccess _ _ _ _ w) as [[r|e] w1]; [|done].
  destruct (expectFileExists _ _ _ w1) as [[[]|e] w2]; [|done].
  by destruct (expectYamlContains _ _ _ _ _ _ _ w2) as [[[]|e] w3].
Qed.

(** X7: [addSection] launches [add section <name>] with its flags once,
    and succeeds exactly when the tool exited with code 0, the section's
    markdown file then exists, and the page's [page.yml] is a readable
    file that parses to a document whose [sections] member is a value in
    which [toContain] finds the name.  For an array that is an element
    equal to the name, for a string a part of it; a name that only occurs
    inside a nested mapping, as for a section placed under a parent, is
    not found. *)
Theorem addSection_requires_file_and_listing
    (this : t) (name : string) (o : options) (w : world) :
  let ran := uniweb (addSection_args name o) (default (cwd w) (tempDir this)) (files w) in
  let w' := launched (addSection_args name o) (set_files ran.2 w) in
  let base := Described.segment "sites/" (site o) "/" +:+ "pages"
              +:+ Described.segment "/" (page o) "" in
  (addSection uniweb execa_wording yaml_parse engine this name o w).2 = w'
  ∧ (returns (addSection uniweb execa_wording yaml_parse engine this name o w).1 = true
     ↔ Described.exited_zero ran.1 = true
       ∧ Described.present this w' (base +:+ "/" +:+ name +:+ ".md")
       ∧ ∃ d content doc sections,
           tempDir this = Some d
           ∧ files w' !! path_join d (base +:+ "/" +:+ "page.yml")
             = Some (File content)
           ∧ yaml_parse content = Normal doc
           ∧ getNestedProperty engine (Some doc) "sections" = Normal sections
           ∧ contains engine sections name = Normal true)
  ∧ (∀ props listed,
       JsObject.get "sections" props = Some listed →
       getNestedProperty engine (Some (Yaml.YMap props)) "sections"
       = Normal (Some listed))
  ∧ (∀ items,
       contains engine (Some (Yaml.YSeq items)) name = Normal true
       ↔ Yaml.YStr name ∈ items)
  ∧ (∀ s, contains engine (Some (Yaml.YStr s)) name = Normal (includes name s))
  ∧ (∀ parent children,
       contains engine
         (Some (Yaml.YSeq [Yaml.YMap [(parent, Yaml.YSeq (Yaml.YStr <$> children))]]))
         name = Normal false).
Proof.
  intros ran w' base. rewrite addSection_as_workflow.
  match goal with
  | |- context [bind _ (fun _ => bind ?c (fun _ => ret this)) w] =>
      assert (Hro : read_only c)
  end.
  { apply read_only_bind; [apply read_only_expectFileExists|].
    intros _. apply read_only_expectYamlContains. }
  destruct (workflow_eval this (addSection_args name o) _ w Hro) as (H1 & H2 & _).
  split; [exact H1|]. split; [|split; [|split; [|split]]].
  - rewrite H2. fold ran w' base.
    rewrite returns_seq by apply read_only_expectFileExists.
    rewrite andb_true_iff, expectFileExists_returns, expectYamlContains_returns.
    done.
  - intros props listed Hget. unfold getNestedProperty.
    change (split "." "sections") with ["sections"].
    cbn [reduce Yaml.optional_get Yaml.member]. unfold Yaml.get_property.
    cbn [Yaml.own_property]. by rewrite Hget.
  - intros items. apply contains_array.
  - done.
  - done.
Qed.

Lemma addLocale_path locale (o : options) :
  addLocale_localePath locale o
  = Described.segment "sites/" (site o) "/" +:+ "locales/" +:+ locale.
Proof. unfold addLocale_localePath. destruct (site o) as [x|]; option_paths. Qed.

(** X8: [addLocale] launches [add locale <codes>] (with [--site <s>] when
    a site is given) once, and succeeds exactly when the tool exited
    with code 0 and, for every code of the comma-separated list, the
    directory [locales/<code>] (below [sites/<site>/] when a site is
    given) then exists. *)
Theorem addLocale_requires_every_locale
    (this : t) (locales : string) (o : options) (w : world) :
  let ran := uniweb (addLocale_args locales o) (default (cwd w) (tempDir this)) (files w) in
  let w' := launched (addLocale_args locales o) (set_files ran.2 w) in
  addLocale_args locales o
  = ["add"; "locale"; locales] ++ Described.flag "--site" (site o)
  ∧ (addLocale uniweb execa_wording this locales o w).2 = w'
  ∧ (returns (addLocale uniweb execa_wording this locales o w).1 = true
     ↔ Described.exited_zero ran.1 = true
       ∧ Forall (fun code =>
                   Described.present this w'
                     (Described.segment "sites/" (site o) "/" +:+ "locales/" +:+ code))
                (split "," locales)).
Proof.
  intros ran w'.
  split; [unfold addLocale_args; apply SandboxFacts.push_flag|].
  assert (Hro : ∀ code, read_only
            (expectFileExists this (addLocale_localePath code o) None)).
  { intros code. apply read_only_expectFileExists. }
  destruct (workflow_eval this (addLocale_args locales o)
              (for_each (fun locale =>
                           expectFileExists this (addLocale_localePath locale o) None)
                        (split "," locales)) w
              (read_only_for_each _ _ Hro)) as (H1 & H2 & _).
  split; [exact H1|].
  unfold addLocale. rewrite H2. fold ran w'.
  destruct (for_each_checks
              (fun locale => expectFileExists this (addLocale_localePath locale o) None)
              (split "," locales) w' Hro) as [H3 _].
  rewrite H3. apply and_iff_compat_l, Forall_iff. intros code.
  rewrite expectFileExists_returns. by rewrite addLocale_path.
Qed.

(** *** Commands and directories *)

(** X9: [initProject] fails at once, without changing directory, when the
    tool does not exit with code 0.  After a successful command it stays
    where it is for the name ["."]; for any other name it enters
    that directory, resolved against the process's working directory (the
    tool itself was started in the sandbox directory), and fails if it is
    not there. *)
Theorem initProject_enters_project (this : t) (name : string) (o : options) (w : world) :
  let ran := uniweb (initProject_args name o) (default (cwd w) (tempDir this)) (files w) in
  let w' := launched (initProject_args name o) (set_files ran.2 w) in
  let target := resolve (cwd w) name in
  if Described.exited_zero ran.1 then
    if String.eqb name "." then
      initProject uniweb execa_wording this name o w = (Normal this, w')
    else
      match ran.2 !! target with
      | Some Dir => initProject uniweb execa_wording this name o w = (Normal this, set_cwd target w')
      | _ => returns (initProject uniweb execa_wording this name o w).1 = false
             ∧ (initProject uniweb execa_wording this name o w).2 = w'
      end
  else
    returns (initProject uniweb execa_wording this name o w).1 = false
    ∧ (initProject uniweb execa_wording this name o w).2 = w'
    ∧ cwd w' = cwd w.
Proof.
  intros ran w' target. unfold initProject, bind, ret.
  destruct (expectCommandSuccess_world this (initProject_args name o) w) as [Hw Hr].
  fold ran in Hw, Hr. fold w' in Hw.
  destruct (expectCommandSuccess uniweb execa_wording this (initProject_args name o) w)
    as [[r|e] w1]; simpl in Hw, Hr; subst w1; rewrite <- Hr.
  - destruct (String.eqb name "."); simpl; [done|].
    unfold chdir. simpl. fold target.
    by destruct (ran.2 !! target) as [[|]|].
  - done.
Qed.

(** X10: once the sandbox directory is set, the tool is always started in
    it: the process's working directory has no influence on what
    [runUniweb] launches or returns, so a [cd] before a command changes
    nothing for the tool. *)
Theorem tool_runs_in_sandbox_directory
    (d o : string) (args : list string) (elsewhere directory : string) (w : world) :
  let this := {| tempDir := Some d; originalCwd := o |} in
  (runUniweb uniweb execa_wording this args (set_cwd elsewhere w)).1 = (runUniweb uniweb execa_wording this args w).1
  ∧ (runUniweb uniweb execa_wording this args (set_cwd elsewhere w)).2
    = set_cwd elsewhere (runUniweb uniweb execa_wording this args w).2
  ∧ (returns (cd this directory w).1 = true →
     (bind (cd this directory) (fun _ => runUniweb uniweb execa_wording this args) w).1
     = (runUniweb uniweb execa_wording this args w).1
     ∧ files (bind (cd this directory) (fun _ => runUniweb uniweb execa_wording this args) w).2
       = files (runUniweb uniweb execa_wording this args w).2).
Proof.
  intros this.
  assert (H : ∀ c, runUniweb uniweb execa_wording this args (set_cwd c w)
                   = ((runUniweb uniweb execa_wording this args w).1,
                      set_cwd c (runUniweb uniweb execa_wording this args w).2)).
  { intros c. unfold runUniweb, try_catch, bind, ret, execa. simpl.
    destruct (uniweb args d (files w)) as [p files'].
    by destruct (execa_settle execa_wording "uniweb" args p). }
  split; [by rewrite H|]. split; [by rewrite H|].
  unfold bind at 1 2.
  destruct (cd this directory w) as [[t'|e] w1] eqn:C; simpl; [|done].
  intros _.
  assert (∃ c, w1 = set_cwd c w) as [c ->].
  { unfold cd, bind, in_sandbox, chdir, ret in C. simpl in C.
    destruct (files w !! _) as [[|]|]; inversion C; eauto. }
  by rewrite H.
Qed.

Lemma runUniweb_result this args w :
  runUniweb uniweb execa_wording this args w
  = let ran := uniweb args (default (cwd w) (tempDir this)) (files w) in
    (Normal
       match execa_settle execa_wording "uniweb" args ran.1 with
       | Normal result =>
           {| success := true; stdout := r_stdout result;
              stderr := r_stderr result; exitCode := r_exitCode result;
              error := None |}
       | Throw r =>
           {| success := false; stdout := or_else (stdout_of r) "";
              stderr := or_else (stderr_of r) "";
              exitCode := num_or_else (exitCode_of r) 1;
              error := Some (message r) |}
       end,
     launched args (set_files ran.2 w)).
Proof.
  unfold runUniweb, try_catch, bind, ret, execa.
  destruct (uniweb args _ (files w)) as [p files']. cbn [fst snd].
  by destruct (execa_settle execa_wording "uniweb" args p).
Qed.

(** What a failed command offers for inspection: the captured standard
    error, or the rejection's message when nothing was captured. *)
Lemma stderr_or_error_failed args p r :
  execa_settle execa_wording "uniweb" args p = Throw r →
  stderr_or_error
    {| success := false; stdout := or_else (stdout_of r) "";
       stderr := or_else (stderr_of r) "";
       exitCode := num_or_else (exitCode_of r) 1; error := Some (message r) |}
  = Some (if String.eqb (Described.captured_stderr p) ""
          then message r else Described.captured_stderr p).
Proof.
  unfold stderr_or_error. simpl.
  destruct p as [code out err|out err|]; simpl.
  - destruct (code =? 0)%Z; [done|]. intros [= <-]. simpl.
    destruct err; done.
  - intros [= <-]. simpl. destruct err; done.
  - intros [= <-]. done.
Qed.

(** X11: [expectCommandFailure] passes exactly when the tool did not exit
    with code 0 and, if an expected text is given, that text occurs in
    the captured standard error, or, when nothing was written to standard
    error, in the message of the error [execa] rejected with.  It never
    passes for a command that succeeded. *)
Theorem expectCommandFailure_inspects_stderr_first
    (this : t) (args : list string) (expectedError message_ : option string)
    (w : world) :
  let ran := uniweb args (default (cwd w) (tempDir this)) (files w) in
  (expectCommandFailure uniweb execa_wording engine this args expectedError message_ w).2
  = launched args (set_files ran.2 w)
  ∧ match execa_settle execa_wording "uniweb" args ran.1 with
    | Normal _ =>
        returns (expectCommandFailure uniweb execa_wording engine this args expectedError message_ w).1
        = false
    | Throw rejection =>
        returns (expectCommandFailure uniweb execa_wording engine this args expectedError message_ w).1
        = if truthy expectedError
          then includes (the expectedError)
                 (if String.eqb (Described.captured_stderr ran.1) ""
                  then message rejection
                  else Described.captured_stderr ran.1)
          else true
    end.
Proof.
  intros ran. unfold expectCommandFailure, bind.
  rewrite runUniweb_result. subst ran. cbv zeta.
  destruct (uniweb args _ (files w)) as [p files']. cbn [fst snd].
  pose proof (stderr_or_error_failed args p) as Hs.
  destruct (execa_settle execa_wording "uniweb" args p) as [res|r]; simpl; [done|].
  specialize (Hs r eq_refl).
  destruct (truthy expectedError); simpl; [|done].
  rewrite Hs. unfold expect_value_toContain, contains, ret, throw. simpl.
  by destruct (includes _ _).
Qed.

(** X12: [expectCommandSuccess] returns the result record when the tool
    exited with code 0 and otherwise fails at once with an assertion
    error whose text names the command line and carries the message of
    the error [execa] rejected with; since that message is never empty,
    the captured standard error is not what the text shows. *)
Theorem expectCommandSuccess_reports_rejection
    (this : t) (args : list string) (w : world) :
  let ran := uniweb args (default (cwd w) (tempDir this)) (files w) in
  let w' := launched args (set_files ran.2 w) in
  match execa_settle execa_wording "uniweb" args ran.1 with
  | Normal result =>
      expectCommandSuccess uniweb execa_wording this args w
      = (Normal {| success := true; stdout := r_stdout result;
                   stderr := r_stderr result; exitCode := r_exitCode result;
                   error := None |}, w')
  | Throw rejection =>
      expectCommandSuccess uniweb execa_wording this args w
      = (Throw (AssertionError
                  ("Expected 'uniweb " +:+ join " " args
                   +:+ "' to succeed. Error: " +:+ message rejection)), w')
  end.
Proof.
  intros ran w'. subst w'. unfold expectCommandSuccess, bind.
  rewrite runUniweb_result. subst ran. cbv zeta.
  destruct (uniweb args _ (files w)) as [p files']. cbn [fst snd].
  destruct p as [code out err|out err|]; simpl.
  - by destruct (code =? 0)%Z.
  - done.
  - done.
Qed.

Lemma path_join_absolute d x :
  String.prefix "/" d = true → String.prefix "/" (path_join d x) = true.
Proof.
  unfold path_join. destruct d as [|c d']; [done|].
  rewrite JsFacts.append_cons. cbn [String.prefix].
  destruct (ascii_dec "/" c); [|done]. intros _. by destruct (d' +:+ _).
Qed.

Lemma cd_eval d o directory w :
  String.prefix "/" d = true →
  cd {| tempDir := Some d; originalCwd := o |} directory w
  = match files w !! path_join d directory with
    | Some Dir =>
        (Normal {| tempDir := Some d; originalCwd := o |},
         set_cwd (path_join d directory) w)
    | _ =>
        (Throw (SystemError ("ENOENT: no such file or directory, chdir "
                             +:+ path_join d directory)), w)
    end.
Proof.
  intros Hd. unfold cd, in_sandbox, bind, ret, chdir. simpl.
  rewrite SandboxFacts.resolve_absolute by by apply path_join_absolute.
  by destruct (files w !! path_join d directory) as [[|]|].
Qed.

(** X13: [cd] is anchored at the sandbox directory, not at the current
    one: a [cd] to an existing directory followed by a second [cd] ends
    where the second alone would.  [navigateToSite] and [navigateToPage]
    are [cd] to [sites/<site>] and to [pages/<page>] (below
    [sites/<site>/] when a site is given). *)
Theorem cd_anchored_at_sandbox (d o : string) (first second : string) (w : world) :
  String.prefix "/" d = true →
  files w !! path_join d first = Some Dir →
  let this := {| tempDir := Some d; originalCwd := o |} in
  cd this first w = (Normal this, set_cwd (path_join d first) w)
  ∧ (bind (cd this first) (fun _ => cd this second) w).1 = (cd this second w).1
  ∧ (returns (cd this second w).1 = true →
     bind (cd this first) (fun _ => cd this second) w = cd this second w)
  ∧ (∀ site_ page_ site_opt,
       navigateToSite this site_ = cd this ("sites/" +:+ site_)
       ∧ navigateToPage this page_ site_opt
         = cd this (Described.segment "sites/" site_opt "/" +:+ "pages/" +:+ page_)).
Proof.
  intros Hd Hf this. subst this.
  assert (H1 := cd_eval d o first w Hd). rewrite Hf in H1.
  split; [exact H1|].
  unfold bind. rewrite H1, !cd_eval by done. simpl.
  split; [|split].
  - by destruct (files w !! path_join d second) as [[|]|].
  - by destruct (files w !! path_join d second) as [[|]|].
  - intros site_ page_ site_opt. split; [done|].
    unfold navigateToPage. f_equal.
    destruct site_opt as [x|]; option_paths.
Qed.

(** *** Set-up and teardown *)

Lemma under_self d : under d d = true.
Proof. unfold under. by rewrite String.eqb_refl. Qed.

Lemma not_blocked d w :
  (∀ p, p ∈ locked w → under d p = true → files w !! p = None) →
  blocked d w = false.
Proof.
  intros H. unfold blocked. apply bool_decide_eq_false.
  intros (p & Hin & Hu & [x Hx]). by rewrite (H p Hin Hu) in Hx.
Qed.

Lemma removed_twice d (m : gmap string entry) :
  filter (fun kv => under d kv.1 = false)
         (filter (fun kv => under d kv.1 = false) m)
  = filter (fun kv => under d kv.1 = false) m.
Proof.
  apply map_eq. intros p. rewrite !SandboxFacts.removed_lookup.
  by destruct (under d p).
Qed.

(** X14: [cleanup()] does nothing at all on an environment that was never
    set up, and it can be called again: after a teardown that went
    through, a second one finds the directory gone, changes nothing and
    prints no warning. *)
Theorem cleanup_twice (d o : string) (w : world) :
  truthy (Some d) = true →
  String.prefix "/" o = true →
  files w !! o = Some Dir →
  under d o = false →
  blocked d w = false →
  let this := {| tempDir := Some d; originalCwd := o |} in
  let w1 := (cleanup removal_failure this w).2 in
  cleanup removal_failure {| tempDir := None; originalCwd := o |} w = (Normal tt, w)
  ∧ warnings w1 = warnings w
  ∧ (∀ p, under d p = true → files w1 !! p = None)
  ∧ cleanup removal_failure this w1 = (Normal tt, w1).
Proof.
  intros Ht Ho Hf Hu Hb this w1. subst this w1.
  split; [done|].
  rewrite (SandboxFacts.cleanup_eval removal_failure d o w Ho), Ht, Hf, Hb. simpl.
  split; [done|]. split.
  { intros p Hp. by rewrite SandboxFacts.removed_lookup, Hp. }
  rewrite SandboxFacts.cleanup_eval, Ht by done. simpl.
  rewrite SandboxFacts.removed_lookup, Hu, Hf.
  rewrite not_blocked.
  - unfold set_files, set_cwd. simpl. by rewrite removed_twice.
  - intros p _ Hp. simpl. by rewrite SandboxFacts.removed_lookup, Hp.
Qed.

(** X15: [setup()] followed at once by [cleanup()] is a round trip: from
    a world whose working directory and temporary directory exist (both
    absolute) and in which the new name is free, [setup()] creates the
    directory and enters it, and [cleanup()] then gives back exactly the
    world [setup()] started from. *)
Theorem setup_cleanup_round_trip (suffix : string) (w : world) :
  let d := path_join temporaryDirectory ("uniweb-test-" +:+ suffix) in
  let fresh := {| tempDir := None; originalCwd := cwd w |} in
  String.prefix "/" temporaryDirectory = true →
  String.prefix "/" (cwd w) = true →
  files w !! temporaryDirectory = Some Dir →
  files w !! cwd w = Some Dir →
  (∀ p, under d p = true → files w !! p = None ∧ p ∉ locked w) →
  ∃ this w1,
    setup temporaryDirectory suffix fresh w = (Normal d, this, w1)
    ∧ tempDir this = Some d
    ∧ cwd w1 = d
    ∧ files w1 !! d = Some Dir
    ∧ cleanup removal_failure this w1 = (Normal tt, w).
Proof.
  intros d fresh Htmp Hcwd Hft Hfc Hfree.
  destruct (Hfree d (under_self d)) as [Hd _].
  assert (Hne : cwd w ≠ d) by (intros E; rewrite E in Hfc; by rewrite Hd in Hfc).
  assert (Hu : under d (cwd w) = false).
  { destruct (under d (cwd w)) eqn:U; [|done].
    destruct (Hfree _ U) as [Hn _]. by rewrite Hn in Hfc. }
  eexists _, _. split.
  { unfold setup, mkdtemp, chdir. fold d. rewrite Hft, Hd. simpl.
    rewrite SandboxFacts.resolve_absolute by by apply path_join_absolute.
    rewrite lookup_insert_eq. reflexivity. }
  split; [done|]. split; [done|]. split; [apply lookup_insert_eq|].
  rewrite SandboxFacts.cleanup_eval by done.
  pose proof (SandboxFacts.path_join_truthy temporaryDirectory
                ("uniweb-test-" +:+ suffix)) as Ht.
  fold d in Ht. rewrite Ht. simpl.
  rewrite lookup_insert_ne, Hfc by done.
  rewrite not_blocked.
  - destruct w as [c f l ws inv]. unfold set_files, set_cwd. simpl in *.
    f_equal. f_equal. apply map_eq. intros p.
    rewrite SandboxFacts.removed_lookup.
    destruct (under d p) eqn:U.
    + symmetry. by apply Hfree.
    + apply lookup_insert_ne. intros <-. by rewrite under_self in U.
  - intros p Hin Hp. simpl in Hin. by destruct (Hfree p Hp).
Qed.

(** *** Dotted paths *)

Lemma includes_dot_cons c key :
  includes "." (String c key) = false →
  Ascii.eqb c "." = false ∧ includes "." key = false.
Proof.
  cbn [includes String.prefix].
  destruct (ascii_dec "." c) as [<-|Hne].
  - by destruct key.
  - intros H. split; [|done]. apply Ascii.eqb_neq. congruence.
Qed.

Lemma split_plain_key key :
  includes "." key = false → split "." key = [key].
Proof.
  induction key as [|c key IH]; [done|].
  intros H. apply includes_dot_cons in H as [Hc Hk].
  cbn [split]. by rewrite Hc, IH.
Qed.

Lemma split_key_then_length key :
  includes "." key = false → split "." (key +:+ ".length") = [key; "length"].
Proof.
  induction key as [|c key IH]; [done|].
  intros H. apply includes_dot_cons in H as [Hc Hk].
  rewrite JsFacts.append_cons. cbn [split]. by rewrite Hc, IH.
Qed.

(** X16: on a parsed mapping, a path that is one plain key (no dot) reads
    that entry, and [<key>.length] on an entry that is a sequence yields
    the number of its elements, as [sections.length] does for a page
    manifest. *)
Theorem sequence_length_by_path
    (props : list (string * Yaml.value)) (key : string) (items : list Yaml.value) :
  includes "." key = false →
  JsObject.get key props = Some (Yaml.YSeq items) →
  getNestedProperty engine (Some (Yaml.YMap props)) key = Normal (Some (Yaml.YSeq items))
  ∧ getNestedProperty engine (Some (Yaml.YMap props)) (key +:+ ".length")
    = Normal (Some (Yaml.YNum (Z.of_nat (length items)))).
Proof.
  intros Hk Hg. unfold getNestedProperty.
  rewrite split_plain_key, split_key_then_length by done.
  cbn [reduce Yaml.optional_get Yaml.member]. unfold Yaml.get_property.
  cbn [Yaml.own_property]. rewrite Hg.
  split; [done|].
  cbn [reduce Yaml.optional_get Yaml.member]. unfold Yaml.get_property.
  by cbn.
Qed.

End WithTool.
End SandboxMore.

(** ** More of the content builder *)
Module ContentBuilderMore.
Import Js ContentBuilder.




Lemma assign_body key value b : body (assign key value b) = body b.
Proof. unfold assign. destruct (negb (detached b) && _); [by destruct value|done]. Qed.


Lemma list_body items b :
  body (list_ items b) = body b ++ ((fun item => "- " +:+ item) <$> items).
Proof.
  unfold list_. revert b.
  induction items as [|i items IH]; intros b; simpl.
  - by rewrite app_nil_r.
  - rewrite IH. simpl. by rewrite <- app_assoc.
Qed.

Lemma apply_body b c : body (apply b c) = body b ++ blocks_of c.
Proof.
  destruct c; simpl; try done;
    try (unfold component, param; by rewrite assign_body, app_nil_r).
  - apply list_body.
  - unfold link. simpl. do 2 f_equal.
    rewrite JsObjectFacts.keys_length.
    destruct (JsObject.keys attributes) eqn:K.
    + apply (f_equal length) in K. rewrite JsObjectFacts.keys_length in K.
      by destruct attributes.
    + apply (f_equal length) in K. rewrite JsObjectFacts.keys_length in K.
      by destruct attributes.
Qed.

(** The builder without its body. *)
Local Abbreviation front b :=
  {| frontMatter := frontMatter b; detached := detached b; body := [] |}.

Lemma assign_front key value b : front (assign key value b) = assign key value (front b).
Proof.
  unfold assign. simpl.
  destruct (negb (detached b) && _); [by destruct value|done].
Qed.

Lemma apply_front b c :
  front (apply b c) = if writes_front_matter c then apply (front b) c else front b.
Proof.
  destruct c; simpl; try done; try apply assign_front.
  by rewrite ContentBuilderFacts.list_frontMatter, ContentBuilderFacts.list_detached.
Qed.

Lemma chain_from cs b :
  body (List.fold_left apply cs b) = body b ++ mjoin (blocks_of <$> cs)
  ∧ front (List.fold_left apply cs b)
    = front (List.fold_left apply (List.filter writes_front_matter cs) (front b)).
Proof.
  revert b. induction cs as [|c cs IH]; intros b; simpl.
  - by rewrite app_nil_r.
  - destruct (IH (apply b c)) as [-> ->]. split.
    + rewrite apply_body. by rewrite <- app_assoc.
    + rewrite apply_front. by destruct (writes_front_matter c).
Qed.

Lemma blocks_count (cs : list call) :
  length (mjoin (blocks_of <$> cs)) = sum_list (length ∘ blocks_of <$> cs).
Proof.
  induction cs as [|c cs IH]; [done|].
  cbn [fmap list_fmap mjoin list_join sum_list sum_list_with compose].
  rewrite length_app. f_equal. exact IH.
Qed.

(** X18: in a chain of builder calls, the body and the front matter do
    not depend on each other: the body is the blocks of the calls in
    order (one block per [title], [paragraph], [heading], [image] and
    [link], one per item for [list], none for [component] and [param]),
    and the front matter is what the [component] and [param] calls alone
    produce. *)
Theorem chain_body_and_front_matter_independent (cs : list call) :
  body (chain cs) = mjoin (blocks_of <$> cs)
  ∧ frontMatter (chain cs)
    = frontMatter (chain (List.filter writes_front_matter cs))
  ∧ length (body (chain cs)) = sum_list (length ∘ blocks_of <$> cs).
Proof.
  destruct (chain_from cs new) as [Hb Hf]. simpl in Hb.
  split; [exact Hb|]. split.
  - apply (f_equal frontMatter) in Hf. exact Hf.
  - fold (chain cs) in Hb. rewrite Hb. apply blocks_count.
Qed.

End ContentBuilderMore.

(** ** The builder's output under the check of [setSection] *)
Module BuiltContentFacts.
Import Js ContentBuilder.


Section WithEngine.
Variable number_to_string : number → string.

Local Abbreviation build := (ContentBuilder.build number_to_string).


End WithEngine.

End BuiltContentFacts.

(** ** The assertion chain *)
Module AssertionChainFacts.
Import Js Sandbox.

Section WithMatchers.
Variable yaml_parse : string → completion Yaml.value.
Variable engine : Yaml.engine.
Variable toEqual : Yaml.js → Yaml.js → bool.
Variable render : Yaml.js → string.

Local Abbreviation check := (AssertionChain.check yaml_parse engine toEqual render).
Local Abbreviation declare := (AssertionChain.declare yaml_parse engine toEqual render).
Local Abbreviation declared := (AssertionChain.declared yaml_parse engine toEqual render).

Lemma declare_queues c d :
  AssertionChain.assertions (declare c d)
  = AssertionChain.assertions c ++ [check (AssertionChain.env c) d]
  ∧ AssertionChain.env (declare c d) = AssertionChain.env c.
Proof. by destruct d. Qed.

Lemma declare_all_queues ds c :
  AssertionChain.assertions (List.fold_left declare ds c)
  = AssertionChain.assertions c ++ (check (AssertionChain.env c) <$> ds)
  ∧ AssertionChain.env (List.fold_left declare ds c) = AssertionChain.env c.
Proof.
  revert c. induction ds as [|d ds IH]; intros c; simpl.
  - by rewrite app_nil_r.
  - destruct (IH (declare c d)) as [-> ->].
    destruct (declare_queues c d) as [-> ->]. by rewrite <- app_assoc.
Qed.

Lemma for_each_fmap {A B} (f : A → B) (body : B → M unit) xs w :
  for_each body (f <$> xs) w = for_each (fun x => body (f x)) xs w.
Proof.
  revert w. induction xs as [|x xs IH]; intros w; simpl; [done|].
  unfold bind. destruct (body (f x) w) as [[[]|e] w1]; [apply IH|done].
Qed.

Lemma read_only_check env d : read_only (check env d).
Proof.
  destruct d; simpl.
  - apply SandboxMore.read_only_expectFileExists.
  - apply SandboxMore.read_only_expectFileContains.
  - apply SandboxMore.read_only_expectYamlProperty.
Qed.

(** X20: declaring assertions runs nothing: each of [fileExists],
    [fileContains] and [yamlProperty] queues one closure.  [verify()]
    then runs them in the order declared, passes exactly when all of
    them pass, stops at the first that fails with that assertion's error,
    and never changes the sandbox, so it can be repeated with the same
    outcome. *)
Theorem verify_in_order_first_failure
    (env : Sandbox.t) (ds : list AssertionChain.declaration) (w : world) :
  let c := declared env ds in
  AssertionChain.assertions c = check env <$> ds
  ∧ AssertionChain.env c = env
  ∧ (AssertionChain.verify c w).2 = w
  ∧ (returns (AssertionChain.verify c w).1 = true
     ↔ Forall (fun d => returns (check env d w).1 = true) ds)
  ∧ (∀ pre d post e,
       ds = pre ++ d :: post →
       Forall (fun d' => returns (check env d' w).1 = true) pre →
       (check env d w).1 = Throw e →
       AssertionChain.verify c w = (Throw e, w))
  ∧ AssertionChain.verify c (AssertionChain.verify c w).2
    = AssertionChain.verify c w.
Proof.
  intros c.
  destruct (declare_all_queues ds (AssertionChain.new env)) as [Ha He].
  simpl in Ha, He. fold (declared env ds) in Ha, He. fold c in Ha, He.
  assert (Hv : ∀ w0, AssertionChain.verify c w0 = for_each (check env) ds w0).
  { intros w0. unfold AssertionChain.verify. rewrite Ha.
    exact (for_each_fmap (check env) (fun a => a) ds w0). }
  assert (Hro : (AssertionChain.verify c w).2 = w).
  { rewrite Hv. apply SandboxMore.read_only_for_each. apply read_only_check. }
  destruct (SandboxMore.for_each_checks (check env) ds w (read_only_check env))
    as [H1 H2].
  split; [done|]. split; [done|]. split; [done|].
  split; [by rewrite Hv|]. split; [|by rewrite Hro].
  intros pre d post e Heq Hpre Hd. rewrite Hv. by apply (H2 pre d post e).
Qed.

End WithMatchers.
End AssertionChainFacts.

(** ** More of the performance helper *)
Module PerformanceMore.
Import Js PerformanceHelper.

Lemma get_metrics_object name this :
  Yaml.own_property (metrics_object this) name
  = Yaml.YNum <$> JsObject.get name (metrics this).
Proof.
  unfold metrics_object. cbn [Yaml.own_property]. unfold JsObject.get.
  induction (metrics this) as [|[k d] m IH]; [done|].
  rewrite fmap_cons. cbn [List.find prod_map fst snd id].
  destruct (String.eqb k name); [done|]. exact IH.
Qed.

(** X21: [expectOperationFasterThan] reads [this.metrics[name]]: with a
    measurement of that name it passes exactly when the measurement is
    strictly below the limit; with none, and nothing of that name
    inherited, it fails.  After a successful [timeOperation] under a name
    other than [__proto__] it judges the duration just measured; after a
    failed one the helper is as the operation left it. *)
Theorem expectation_judges_last_measurement {W R : Type}
    (engine : Yaml.engine) (render : Yaml.js → string)
    (now : W → Z) (name : string) (operation : t → W → completion R * t * W)
    (this : t) (w : W) (maxMs : Z) :
  (∀ d, JsObject.get name (metrics this) = Some d →
        returns (expectOperationFasterThan engine render name maxMs this)
        = (d <? maxMs)%Z)
  ∧ (JsObject.get name (metrics this) = None →
     Yaml.inherited engine (metrics_object this) name = Normal Yaml.undefined →
     returns (expectOperationFasterThan engine render name maxMs this) = false)
  ∧ let this' := (timeOperation now name operation this w).1.2 in
    match operation this w with
    | (Normal _, _, w1) =>
        name ≠ "__proto__" →
        returns (expectOperationFasterThan engine render name maxMs this')
        = (now w1 - now w <? maxMs)%Z
    | (Throw _, this1, _) => this' = this1
    end.
Proof.
  assert (Hown : ∀ h d, JsObject.get name (metrics h) = Some d →
                        returns (expectOperationFasterThan engine render name maxMs h)
                        = (d <? maxMs)%Z).
  { intros h d Hd. unfold expectOperationFasterThan, Yaml.get_property.
    rewrite get_metrics_object, Hd. simpl. by destruct (d <? maxMs)%Z. }
  split; [apply Hown|]. split.
  - intros Hnone Hinh. unfold expectOperationFasterThan, Yaml.get_property.
    by rewrite get_metrics_object, Hnone, Hinh.
  - unfold timeOperation.
    destruct (operation this w) as [[[r|e] this1] w1]; simpl; [|done].
    intros Hne. apply Hown. simpl.
    rewrite PerformanceFacts.set_ordinary by done.
    apply JsObjectFacts.get_define_same.
Qed.

End PerformanceMore.

(** ** More of the batch *)
Module BatchMore.
Import Js Sandbox.

Section WithTool.
Variable uniweb : list string → string → gmap string entry
                  → process * gmap string entry.
Variable execa_wording : string → list string → process → string.
Variable yaml_parse : string → completion Yaml.value.
Variable engine : Yaml.engine.

(** X22: [execute()] has a case for the three record types only: a
    record of any other type in the queue is passed over without a call
    and without an error, so the run is the run of the records it
    handles; an empty queue resolves to the sandbox without launching
    anything. *)
Theorem execute_skips_unhandled_records
    (env : Sandbox.t) (ops : list BatchOperations.operation) (w : world) :
  BatchOperations.each uniweb execa_wording yaml_parse engine env ops w
  = BatchOperations.each uniweb execa_wording yaml_parse engine env
      (List.filter BatchOperations.handled ops) w
  ∧ BatchOperations.execute uniweb execa_wording yaml_parse engine (BatchOperations.new env) w
    = (Normal env, BatchOperations.new env, w).
Proof.
  split; [|done]. revert w.
  induction ops as [|op ops IH]; intros w; simpl; [done|].
  unfold BatchOperations.handled at 1.
  destruct (String.eqb (BatchOperations.type op) "addPage") eqn:E1;
    [|destruct (String.eqb (BatchOperations.type op) "addSection") eqn:E2;
      [|destruct (String.eqb (BatchOperations.type op) "setSection") eqn:E3]];
    simpl.
  - unfold bind. destruct (BatchOperations.dispatch _ _ _ _ _) as [[[]|e] w1];
      [apply IH|done].
  - unfold bind. destruct (BatchOperations.dispatch _ _ _ _ _) as [[[]|e] w1];
      [apply IH|done].
  - unfold bind. destruct (BatchOperations.dispatch _ _ _ _ _) as [[[]|e] w1];
      [apply IH|done].
  - unfold bind at 1, BatchOperations.dispatch. rewrite E1, E2, E3. simpl.
    apply IH.
Qed.

End WithTool.
End BatchMore.

(** ** More concrete runs *)
Module MoreRuns.
Import Js Sandbox Demo.

Example nested_section_not_listed :
  contains engine
    (Some (Yaml.YSeq [Yaml.YStr "hero";
                      Yaml.YMap [("hero", Yaml.YSeq [Yaml.YStr "intro"])]]))
    "intro" = Normal false
  ∧ contains engine
      (Some (Yaml.YSeq [Yaml.YStr "hero"; Yaml.YStr "intro"])) "intro" = Normal true.
Proof. split; reflexivity. Qed.

(** An array-like mapping is searched like an array. *)
Example array_like_sections :
  contains engine
    (Some (Yaml.YMap [("0", Yaml.YStr "intro"); ("length", Yaml.YNum 1)]))
    "intro" = Normal true.
Proof. reflexivity. Qed.

Example add_page_run :
  addPage tool wording env "team" no_options used
  = (Normal env,
     launched ["add"; "page"; "team"]
       (set_files (<["/tmp/uniweb-test-k3x9/pages/team/page.yml" := File "sections: []"]>
                     (files used)) used)).
Proof. vm_compute. reflexivity. Qed.

(** Two [cd] calls in the sandbox of [Demo.used]. *)
Lemma cd_anchored_witness :
  String.prefix "/" sandbox = true
  ∧ files used !! path_join sandbox "pages" = Some Dir
  ∧ bind (cd env "pages") (fun _ => cd env "pages/about") used
    = cd env "pages/about" used.
Proof.
  assert (H1 : String.prefix "/" sandbox = true) by reflexivity.
  assert (H2 : files used !! path_join sandbox "pages" = Some Dir)
    by (vm_compute; reflexivity).
  split; [exact H1|]. split; [exact H2|].
  destruct (SandboxMore.cd_anchored_at_sandbox sandbox home "pages" "pages/about"
              used H1 H2) as (_ & _ & H3 & _).
  apply H3. vm_compute. reflexivity.
Defined.

(** Teardown, twice, after the test of [Demo.used]. *)
Lemma cleanup_twice_witness :
  truthy (Some sandbox) = true
  ∧ String.prefix "/" home = true
  ∧ files used !! home = Some Dir
  ∧ under sandbox home = false
  ∧ blocked sandbox used = false
  ∧ cleanup removal_failure env (cleanup removal_failure env used).2 = (Normal tt, (cleanup removal_failure env used).2).
Proof.
  assert (H1 : truthy (Some sandbox) = true) by reflexivity.
  assert (H2 : String.prefix "/" home = true) by reflexivity.
  assert (H3 : files used !! home = Some Dir) by (vm_compute; reflexivity).
  assert (H4 : under sandbox home = false) by (vm_compute; reflexivity).
  assert (H5 : blocked sandbox used = false) by (vm_compute; reflexivity).
  repeat (split; [assumption|]).
  exact (proj2 (proj2 (proj2
           (SandboxMore.cleanup_twice removal_failure sandbox home used H1 H2 H3 H4 H5)))).
Defined.

Lemma start_is_free p :
  under (path_join tmp ("uniweb-test-" +:+ "k3x9")) p = true →
  files start !! p = None ∧ p ∉ locked start.
Proof.
  intros Hu. split; [|apply not_elem_of_empty].
  destruct (decide (p = tmp)) as [->|N1]; [by vm_compute in Hu|].
  destruct (decide (p = home)) as [->|N2]; [by vm_compute in Hu|].
  unfold start. simpl.
  rewrite lookup_insert_ne by done. by apply lookup_singleton_ne.
Qed.

(** Set-up and teardown from [Demo.start]. *)
Lemma setup_cleanup_witness :
  String.prefix "/" tmp = true
  ∧ String.prefix "/" (cwd start) = true
  ∧ files start !! tmp = Some Dir
  ∧ files start !! cwd start = Some Dir
  ∧ ∃ this w1,
      setup tmp "k3x9" {| tempDir := None; originalCwd := cwd start |} start
      = (Normal (path_join tmp ("uniweb-test-" +:+ "k3x9")), this, w1)
      ∧ tempDir this = Some (path_join tmp ("uniweb-test-" +:+ "k3x9"))
      ∧ cwd w1 = path_join tmp ("uniweb-test-" +:+ "k3x9")
      ∧ files w1 !! path_join tmp ("uniweb-test-" +:+ "k3x9") = Some Dir
      ∧ cleanup removal_failure this w1 = (Normal tt, start).
Proof.
  assert (H1 : String.prefix "/" tmp = true) by reflexivity.
  assert (H2 : String.prefix "/" (cwd start) = true) by reflexivity.
  assert (H3 : files start !! tmp = Some Dir) by (vm_compute; reflexivity).
  assert (H4 : files start !! cwd start = Some Dir) by (vm_compute; reflexivity).
  repeat (split; [assumption|]).
  exact (SandboxMore.setup_cleanup_round_trip removal_failure tmp "k3x9" start H1 H2 H3 H4
           start_is_free).
Defined.

(** [sections.length] on the manifest of [Demo.manifest]. *)
Lemma sequence_length_witness :
  includes "." "sections" = false
  ∧ JsObject.get "sections"
      [("title", Yaml.YNull);
       ("sections", Yaml.YSeq [Yaml.YStr "hero"; Yaml.YStr "skills"])]
    = Some (Yaml.YSeq [Yaml.YStr "hero"; Yaml.YStr "skills"])
  ∧ getNestedProperty engine (Some manifest) ("sections" +:+ ".length")
    = Normal (Some (Yaml.YNum 2)).
Proof.
  assert (H1 : includes "." "sections" = false) by reflexivity.
  assert (H2 : JsObject.get "sections"
                 [("title", Yaml.YNull);
                  ("sections", Yaml.YSeq [Yaml.YStr "hero"; Yaml.YStr "skills"])]
               = Some (Yaml.YSeq [Yaml.YStr "hero"; Yaml.YStr "skills"]))
    by reflexivity.
  split; [exact H1|]. split; [exact H2|].
  exact (proj2 (SandboxMore.sequence_length_by_path engine _ "sections" _ H1 H2)).
Defined.

End MoreRuns.
